(** * TruthVote: a shallow embedding of the client logic and the schema

    The development follows the repository file by file:

    - [Js]: the few pieces of JavaScript semantics the code relies on
      (values returned by [JSON.parse], truthiness, [a || b], property
      reads, exceptions, [Math.round], insertion-ordered [Set]);
    - [Analyzer]: [src/lib/analyzer.ts];
    - [PostComponent]: the vote logic of [src/components/Post.tsx];
    - [FeedComponent]: the incremental realtime handler of the Feed;
    - [Storage]: the tables, constraints and row-level-security policies
      of the SQL migrations.

    A number is the rational it denotes ([Q]); sums and quotients are
    rounded to binary64 as the language does ([Js.to_Number]).  [NaN],
    the infinities, negative zero and overflow are outside the model. *)

From Stdlib Require Import List String Ascii Bool ZArith QArith Qround Qpower Qabs Lia Lqa.
From Stdlib Require Import Permutation.
From Stdlib Require Import DecimalString.
Import ListNotations.

Local Open Scope string_scope.

(* ------------------------------------------------------------------ *)
(** ** JavaScript values and exceptions *)

Module Js.

(** What [JSON.parse] can return, plus [undefined] for a property that
    is absent.  Objects keep their fields in source order. *)
#[warnings="-register-all"]
Inductive JsValue : Type :=
| JUndefined
| JNull
| JBool (b : bool)
| JNum (q : Q)
| JStr (s : string)
| JArr (items : list JsValue)
| JObj (fields : list (string * JsValue)).

(** [ToBoolean]: [undefined], [null], [false], [0] and [""] are falsy. *)
Definition truthy (v : JsValue) : bool :=
  match v with
  | JUndefined | JNull => false
  | JBool b => b
  | JNum q => negb (Qeq_bool q 0)
  | JStr s => negb (s =? "")
  | JArr _ | JObj _ => true
  end.

(** [a || b] *)
Definition js_or (a b : JsValue) : JsValue := if truthy a then a else b.

(** A computation that either returns or throws. *)
Inductive Exc (A : Type) : Type :=
| Return (a : A)
| Throw (e : string).
Arguments Return {A} a.
Arguments Throw {A} e.

Definition bind {A B} (c : Exc A) (k : A -> Exc B) : Exc B :=
  match c with
  | Return a => k a
  | Throw e => Throw e
  end.

(** [try { body } catch (error) { handler }] *)
Definition try_catch {A} (body : Exc A) (handler : string -> Exc A) : Exc A :=
  match body with
  | Return a => Return a
  | Throw e => handler e
  end.

Fixpoint assoc (k : string) (fields : list (string * JsValue)) : option JsValue :=
  match fields with
  | [] => None
  | (k', v) :: rest => if k' =? k then Some v else assoc k rest
  end.

(** [v.k] for the property names the analyzer reads ([verdict],
    [true_rate], [reasoning], [sources]): a [TypeError] on [null] and
    [undefined], the field of an object, and [undefined] on anything
    else, since no primitive wrapper or array carries these names. *)
Definition get_prop (v : JsValue) (k : string) : Exc JsValue :=
  match v with
  | JUndefined | JNull => Throw "TypeError"
  | JObj fields =>
      Return (match assoc k fields with Some x => x | None => JUndefined end)
  | JBool _ | JNum _ | JStr _ | JArr _ => Return JUndefined
  end.

(** [Math.round]: the nearest integer, halves going up. *)
Definition Math_round (x : Q) : Q := inject_Z (Qfloor (x + (1 # 2))).

(** [x < y] on numbers, as a boolean. *)
Definition Qlt_bool (x y : Q) : bool := negb (Qle_bool y x).

(** The integer [k] with [2^k <= a < 2^(k+1)], for [a > 0]: the
    difference of the two bit lengths, or one less. *)
Definition ilog2 (a : Q) : Z :=
  let k := (Z.log2 (Qnum a) - Z.log2 (Zpos (Qden a)))%Z in
  if Qle_bool (2 ^ k) a then k else (k - 1)%Z.

(** The integer nearest to [y], a tie going to the even one. *)
Definition round_ties_even (y : Q) : Z :=
  let f := Qfloor y in
  match Qcompare (y - inject_Z f) (1 # 2) with
  | Lt => f
  | Gt => (f + 1)%Z
  | Eq => if Z.even f then f else (f + 1)%Z
  end.

(** The Number value of a real [x]: the nearest binary64 number, ties
    to even.  The significand has 53 bits, so the quantum is
    [2^(k - 52)] for [2^k <= |x| < 2^(k+1)], and never below [2^-1074],
    the spacing of the subnormal numbers. *)
Definition to_Number (x : Q) : Q :=
  if Qeq_bool x 0 then 0
  else
    let a := Qabs x in
    let e := Z.max (ilog2 a - 52) (-1074) in
    let n := round_ties_even (a / 2 ^ e) in
    if Qlt_bool x 0 then - (inject_Z n * 2 ^ e) else inject_Z n * 2 ^ e.

(** [a + b] and [a / b] on numbers: the exact result, rounded. *)
Definition Number_add (a b : Q) : Q := to_Number (a + b).
Definition Number_div (a b : Q) : Q := to_Number (a / b).

(** [new Set(xs)] read back with the spread operator: the distinct
    elements in order of first insertion. *)
Definition Set_add (s : list string) (x : string) : list string :=
  if existsb (String.eqb x) s then s else (s ++ [x])%list.

Definition Set_of (xs : list string) : list string := fold_left Set_add xs [].

End Js.

Declare Scope exc_scope.
Delimit Scope exc_scope with exc.
Notation "x <- c ;; k" := (Js.bind c (fun x => k))
  (at level 61, c at next level, right associativity) : exc_scope.

(* ------------------------------------------------------------------ *)
(** ** src/lib/analyzer.ts *)

Module AnalysisResult.
(** [interface AnalysisResult].  The verdict is kept as the string it is
    at run time: nothing in the code checks it against the three
    literals of the TypeScript union. *)
Record t : Type := mk {
  verdict : string;
  true_rate : Q;
  reasoning : list string;
  sources : list string
}.
End AnalysisResult.

Module CombinedAnalysis.
(** [interface CombinedAnalysis]; [models] is the pair
    [{ openai, gemini }]. *)
Record t : Type := mk {
  true_rate : Q;
  verdict : string;
  reasoning : list string;
  sources : list string;
  models : AnalysisResult.t * AnalysisResult.t
}.
End CombinedAnalysis.

Module Analyzer.
Import Js.
Local Open Scope exc_scope.

(** The object literal an analyzer returns.  Its fields hold whatever
    the parsed reply held: the [AnalysisResult] annotation is not
    checked at run time. *)
Record RawAnalysis : Type := mkRaw {
  raw_verdict : JsValue;
  raw_true_rate : JsValue;
  raw_reasoning : JsValue;
  raw_sources : JsValue
}.

(** The placeholder literals all have this shape; only the reasoning
    line differs. *)
Definition placeholder (line : string) : RawAnalysis :=
  {| raw_verdict := JStr "Mixed";
     raw_true_rate := JNum 50;
     raw_reasoning := JArr [JStr line];
     raw_sources := JArr [] |}.

(** The object built from a parsed reply (lines 84-89 and 141-146). *)
Definition normalize (result : JsValue) : Exc RawAnalysis :=
  verdict <- get_prop result "verdict" ;;
  true_rate <- get_prop result "true_rate" ;;
  reasoning <- get_prop result "reasoning" ;;
  sources <- get_prop result "sources" ;;
  Return {| raw_verdict := js_or verdict (JStr "Mixed");
            raw_true_rate := js_or true_rate (JNum 50);
            raw_reasoning := js_or reasoning (JArr [JStr "Analysis unavailable"]);
            raw_sources := js_or sources (JArr []) |}.

Definition dq : string := String (ascii_of_nat 34) "".
Definition nl : string := String (ascii_of_nat 10) "".

(** The methodology and output format shared by both prompts. *)
Definition prompt_steps : string :=
  "Steps:" ++ nl ++
  "1. Break down the claim into 2-3 key facts." ++ nl ++
  "2. For each fact, reason: Is it verifiable? Cite 1-2 recent sources (real URLs if possible, e.g., from news sites like BBC, Reuters, or official .gov)." ++ nl ++
  "3. Assess evidence strength: Strong (multiple corroborating sources), Weak (conflicting/single source), None (unverifiable)." ++ nl ++
  "4. Calculate true_rate: Percentage (0-100) based on evidence (e.g., 90% if 2/3 facts strong)." ++ nl ++ nl ++
  "Output ONLY valid JSON: { " ++ dq ++ "verdict" ++ dq ++ ": " ++ dq ++ "True" ++ dq ++
  " if >70%, " ++ dq ++ "False" ++ dq ++ " if <30%, else " ++ dq ++ "Mixed" ++ dq ++ ", " ++
  dq ++ "true_rate" ++ dq ++ ": 85, " ++
  dq ++ "reasoning" ++ dq ++ ": [" ++ dq ++ "Bullet 1" ++ dq ++ ", " ++ dq ++ "Bullet 2" ++ dq ++ "], " ++
  dq ++ "sources" ++ dq ++ ": [" ++ dq ++ "https://example.com/source1" ++ dq ++ ", " ++
  dq ++ "https://example.com/source2" ++ dq ++ "] }." ++ nl ++ nl ++
  "Be precise, unbiased, and cite diverse sources. Avoid speculation.".

Definition openai_prompt (currentDate claim webContext : string) : string :=
  "You are a neutral, expert fact-checker. Analyze this claim for truthfulness using logical steps and current web knowledge (as of " ++
  currentDate ++ "). Claim: " ++ claim ++ nl ++ nl ++
  webContext ++ nl ++ nl ++ prompt_steps.

Definition gemini_prompt (currentDate claim webContext : string) : string :=
  "You are a neutral, expert fact-checker. Analyze this claim for truthfulness using logical steps and current web knowledge (as of " ++
  currentDate ++ "). Cross-reference with OpenAI's style for consistency. Use your safety filters but prioritize factual depth. For real-time: Simulate querying search engines for latest data on key facts from claim." ++ nl ++ nl ++
  "Claim: " ++ claim ++ nl ++ nl ++
  webContext ++ nl ++ nl ++ prompt_steps.

(** What awaiting [openai.chat.completions.create] can produce: a
    rejection, or a completion of which the code reads
    [choices[i].message.content] (a string or [null]). *)
Inductive OpenAIReply : Type :=
| CreateRejects (e : string)
| Completion (choices : list (option string)).

(** What the Gemini calls can produce: [generateContent] or
    [response.text()] fails, or a text comes back. *)
Inductive GeminiReply : Type :=
| GenerateRejects (e : string)
| ResponseText (text : string).

(** [text.match(/\{[\s\S]*\}/)]: the leftmost opening brace up to the
    last closing brace after it, [None] when there is no such span. *)
Fixpoint from_first_open (s : string) : option string :=
  match s with
  | EmptyString => None
  | String c rest => if (c =? "{")%char then Some rest else from_first_open rest
  end.

Fixpoint upto_last_close (s : string) : option string :=
  match s with
  | EmptyString => None
  | String c rest =>
      match upto_last_close rest with
      | Some m => Some (String c m)
      | None => if (c =? "}")%char then Some (String c EmptyString) else None
      end
  end.

Definition match_braces (text : string) : option string :=
  match from_first_open text with
  | None => None
  | Some rest =>
      match upto_last_close rest with
      | None => None
      | Some m => Some (String "{" m)
      end
  end.

(** [completion.choices[0].message.content || '{}'] *)
Definition content_or_empty_object (content : option string) : string :=
  match content with
  | Some s => if s =? "" then "{}" else s
  | None => "{}"
  end.

(** The neutral result: verdict "Mixed", rate 50, one line of
    reasoning, no sources. *)
Definition is_placeholder (r : RawAnalysis) : Prop :=
  raw_verdict r = JStr "Mixed" /\
  raw_true_rate r = JNum 50 /\
  (exists line, raw_reasoning r = JArr [JStr line]) /\
  raw_sources r = JArr [].



Section Providers.

(** [JSON.parse]: [None] stands for the [SyntaxError] it throws. *)
Variable JSON_parse : string -> option JsValue.

Definition parse_or_throw (s : string) : Exc JsValue :=
  match JSON_parse s with
  | Some v => Return v
  | None => Throw "SyntaxError"
  end.

(** The module-level clients: [openai] and [genAI] are non-null exactly
    when the matching API key was set. *)
Variable openai_configured genAI_configured : bool.

(** The two providers and the clock, as functions of what is sent. *)
Variable openai_create : string -> OpenAIReply.
Variable gemini_generate : string -> GeminiReply.
Variable currentDate : string.

(** Lines 76-83: await the completion, read
    [choices[0].message.content] and parse it. *)
Definition openai_parsed (reply : OpenAIReply) : Exc JsValue :=
  match reply with
  | CreateRejects e => Throw e
  | Completion [] => Throw "TypeError"
  | Completion (content :: _) => parse_or_throw (content_or_empty_object content)
  end.

Definition analyzeWithOpenAI (claim webContext : string) : Exc RawAnalysis :=
  if negb openai_configured then
    Return (placeholder "OpenAI API key not configured")
  else
    let prompt := openai_prompt currentDate claim webContext in
    try_catch
      (result <- openai_parsed (openai_create prompt) ;;
       normalize result)
      (fun _ => Return (placeholder "OpenAI analysis temporarily unavailable")).

(** Lines 129-140: await the text, cut the JSON span out of it and
    parse that. *)
Definition gemini_parsed (reply : GeminiReply) : Exc JsValue :=
  match reply with
  | GenerateRejects e => Throw e
  | ResponseText text =>
      match match_braces text with
      | None => Throw "No JSON found in response"
      | Some jsonMatch => parse_or_throw jsonMatch
      end
  end.

Definition analyzeWithGemini (claim webContext : string) : Exc RawAnalysis :=
  if negb genAI_configured then
    Return (placeholder "Gemini API key not configured")
  else
    let prompt := gemini_prompt currentDate claim webContext in
    try_catch
      (parsed <- gemini_parsed (gemini_generate prompt) ;;
       normalize parsed)
      (fun _ => Return (placeholder "Gemini analysis temporarily unavailable")).

(** The ways a provider call fails: no client; a call that throws,
    either by rejecting or on reading a reply without a first choice; a
    reply without parseable JSON, or one that parses to [null]. *)
Definition openai_fails (reply : OpenAIReply) : Prop :=
  openai_configured = false \/
  (exists e, reply = CreateRejects e) \/
  reply = Completion [] \/
  (exists content rest,
     reply = Completion (content :: rest) /\
     (JSON_parse (content_or_empty_object content) = None \/
      JSON_parse (content_or_empty_object content) = Some JNull)).

Definition gemini_fails (reply : GeminiReply) : Prop :=
  genAI_configured = false \/
  (exists e, reply = GenerateRejects e) \/
  (exists text, reply = ResponseText text /\
     match match_braces text with
     | None => True
     | Some jsonMatch =>
         JSON_parse jsonMatch = None \/ JSON_parse jsonMatch = Some JNull
     end).

End Providers.

(** [getAnalysis] from the point where both provider results have been
    awaited (lines 167-188).  [postText], [imageUrl] and the web context
    only shape the prompts, whose replies are the inputs here. *)
Definition getAnalysis (openaiRes geminiRes : AnalysisResult.t) : CombinedAnalysis.t :=
  let avgTrueRate :=
    Math_round
      (Number_div
         (Number_add (AnalysisResult.true_rate openaiRes) (AnalysisResult.true_rate geminiRes))
         2) in
  let verdict :=
    if Qlt_bool 70 avgTrueRate then "True"
    else if Qlt_bool avgTrueRate 30 then "False"
    else "Mixed" in
  let combinedReasoning :=
    (map (fun r => ("OpenAI: " ++ r)%string) (AnalysisResult.reasoning openaiRes) ++
     map (fun r => ("Gemini: " ++ r)%string) (AnalysisResult.reasoning geminiRes))%list in
  let combinedSources :=
    Set_of (AnalysisResult.sources openaiRes ++ AnalysisResult.sources geminiRes)%list in
  {| CombinedAnalysis.true_rate := avgTrueRate;
     CombinedAnalysis.verdict := verdict;
     CombinedAnalysis.reasoning := combinedReasoning;
     CombinedAnalysis.sources := combinedSources;
     CombinedAnalysis.models := (openaiRes, geminiRes) |}.

(** [postText + (imageUrl ? ` Image: ${imageUrl}` : '')]: an absent or
    empty URL adds nothing. *)
Definition fullText (postText : string) (imageUrl : option string) : string :=
  postText ++
  match imageUrl with
  | Some u => if u =? "" then "" else " Image: " ++ u
  | None => ""
  end.

(** [s.split(' ')]: the pieces between single spaces; never empty. *)
Fixpoint split_space (s : string) : list string :=
  match s with
  | EmptyString => [EmptyString]
  | String c rest =>
      if (c =? " ")%char then EmptyString :: split_space rest
      else
        match split_space rest with
        | [] => [String c EmptyString]
        | w :: ws => String c w :: ws
        end
  end.

(** [words.join(' ')] *)
Fixpoint join_space (words : list string) : string :=
  match words with
  | [] => ""
  | w :: rest =>
      match rest with
      | [] => w
      | _ :: _ => w ++ " " ++ join_space rest
      end
  end.

(** [claim.split(' ').slice(0, 5).join(' ') + ' fact check'] *)
Definition searchQuery (claim : string) : string :=
  join_space (firstn 5 (split_space claim)) ++ " fact check".

(** The part of the search reply that [getWebContext] reads:
    [Abstract], a string, and [RelatedTopics], absent or a list of
    topics whose [Text] is a string or absent. *)
Record SearchData : Type := mkSearchData {
  Abstract : string;
  RelatedTopics : option (list (option string))
}.

(** [s1 || s2] on strings. *)
Definition or_string (a b : string) : string := if a =? "" then b else a.

(** [data.RelatedTopics?.map(t => t.Text).join(' ')], with the absent
    chain read as the empty string, which is as falsy as [undefined];
    [join] prints an absent [Text] as nothing. *)
Definition topics_text (data : SearchData) : string :=
  match RelatedTopics data with
  | None => ""
  | Some topics =>
      join_space (map (fun t => match t with Some text => text | None => "" end) topics)
  end.

(** [getWebContext]: [fetch_json] is the request followed by
    [response.json()], [None] when either fails. *)
Definition getWebContext (fetch_json : string -> option SearchData) (claim : string)
  : Exc string :=
  try_catch
    (data <- match fetch_json (searchQuery claim) with
             | Some d => Return d
             | None => Throw "fetch"
             end ;;
     let context :=
       or_string (Abstract data) (or_string (topics_text data) "No recent data found.") in
     Return ("Recent web context: " ++ context))
    (fun _ => Return "Web search unavailable; using model knowledge.").

(** The character [c] occurs in [s]. *)
Definition occurs (c : ascii) (s : string) : Prop := In c (list_ascii_of_string s).

(** A returned object read at the types [AnalysisResult] declares; [None]
    when a field holds something else. *)
Fixpoint strings_of (items : list JsValue) : option (list string) :=
  match items with
  | [] => Some []
  | JStr s :: rest =>
      match strings_of rest with
      | Some l => Some (s :: l)
      | None => None
      end
  | _ :: _ => None
  end.

Definition typed (r : RawAnalysis) : option AnalysisResult.t :=
  match raw_verdict r, raw_true_rate r, raw_reasoning r, raw_sources r with
  | JStr v, JNum q, JArr rs, JArr ss =>
      match strings_of rs, strings_of ss with
      | Some reasoning, Some sources => Some (AnalysisResult.mk v q reasoning sources)
      | _, _ => None
      end
  | _, _, _, _ => None
  end.

End Analyzer.

(* ------------------------------------------------------------------ *)
(** ** supabase/migrations: the tables, their constraints and policies

    [votes_insert], [posts_insert], [posts_update] and [posts_delete]
    say what a statement does to the rows it may touch.  [users_upsert]
    and [apply] are the statements as the application sends them, under
    the row-level-security policies of the migration.  A table is a
    list of rows; the order of the list stands for no order the
    database promises. *)

Module Storage.

(** [CREATE TABLE users] *)
Record users_row : Type := mk_user {
  u_id : string;
  name : string;
  u_created_at : Z
}.

(** [CREATE TABLE posts] *)
Record posts_row : Type := mk_post {
  p_id : string;
  author_name : string;
  content : string;
  image_url : option string;
  p_created_at : Z
}.

(** [CREATE TABLE votes]; [vote_type] is [text] guarded by a CHECK. *)
Record votes_row : Type := mk_vote {
  v_id : string;
  post_id : string;
  user_name : string;
  vote_type : string;
  v_created_at : Z
}.

Record Db : Type := mk_db {
  users : list users_row;
  posts : list posts_row;
  votes : list votes_row
}.

Definition empty : Db := {| users := []; posts := []; votes := [] |}.

(** The constraint failures a statement can report, with the SQLSTATE
    the client receives in [error.code]. *)
Inductive SqlError : Type :=
| unique_violation
| foreign_key_violation
| check_violation
| insufficient_privilege.

Definition sqlstate (e : SqlError) : string :=
  match e with
  | unique_violation => "23505"
  | foreign_key_violation => "23503"
  | check_violation => "23514"
  | insufficient_privilege => "42501"
  end.

Inductive Table : Type := users_table | posts_table | votes_table.

Inductive Command : Type := SELECT | INSERT | UPDATE | DELETE.

(** [ENABLE ROW LEVEL SECURITY] on the three tables, and the six
    [CREATE POLICY] statements: each table has a policy [FOR SELECT]
    and one [FOR INSERT], [TO public], with condition [true]; no table
    has a policy for [UPDATE] or [DELETE].  A command without a policy
    sees no row. *)
Definition has_policy (t : Table) (c : Command) : bool :=
  match t, c with
  | (users_table | posts_table | votes_table), (SELECT | INSERT) => true
  | (users_table | posts_table | votes_table), (UPDATE | DELETE) => false
  end.

(** [CHECK (vote_type IN ('true', 'fake'))] *)
Definition vote_type_check (r : votes_row) : bool :=
  (vote_type r =? "true") || (vote_type r =? "fake").

(** [CHECK (length(content) <= 500)] *)
Definition content_check (c : string) : bool :=
  Nat.leb (String.length c) 500.

(** [UNIQUE(post_id, user_name)] *)
Definition same_voter (a b : votes_row) : bool :=
  (post_id a =? post_id b) && (user_name a =? user_name b).

(** [INSERT INTO votes]: the CHECK, then the primary key and the
    [UNIQUE(post_id, user_name)] index, then the foreign key to
    [posts(id)].  The row carries the defaults ([gen_random_uuid()],
    [now()]) already filled in. *)
Definition votes_insert (db : Db) (row : votes_row) : Db + SqlError :=
  if negb (vote_type_check row) then inr check_violation
  else if existsb (fun r => v_id r =? v_id row) (votes db) then inr unique_violation
  else if existsb (same_voter row) (votes db) then inr unique_violation
  else if negb (existsb (fun p => p_id p =? post_id row) (posts db))
       then inr foreign_key_violation
  else inl {| users := users db; posts := posts db; votes := (votes db ++ [row])%list |}.

(** [INSERT INTO posts] *)
Definition posts_insert (db : Db) (row : posts_row) : Db + SqlError :=
  if negb (content_check (content row)) then inr check_violation
  else if existsb (fun p => p_id p =? p_id row) (posts db) then inr unique_violation
  else inl {| users := users db; posts := (posts db ++ [row])%list; votes := votes db |}.

(** [UPDATE posts SET content = c, image_url = u WHERE where_] *)
Definition posts_update (db : Db) (where_ : posts_row -> bool)
    (c : string) (u : option string) : Db + SqlError :=
  if existsb where_ (posts db) && negb (content_check c) then inr check_violation
  else
    inl {| users := users db;
           posts := map (fun p =>
                           if where_ p
                           then {| p_id := p_id p; author_name := author_name p;
                                   content := c; image_url := u;
                                   p_created_at := p_created_at p |}
                           else p) (posts db);
           votes := votes db |}.

(** [DELETE FROM posts WHERE where_], with
    [votes.post_id REFERENCES posts(id) ON DELETE CASCADE]: the votes
    that reference a deleted row go with it. *)
Definition posts_delete (db : Db) (where_ : posts_row -> bool) : Db :=
  let deleted := filter where_ (posts db) in
  {| users := users db;
     posts := filter (fun p => negb (where_ p)) (posts db);
     votes := filter (fun v => negb (existsb (fun p => p_id p =? post_id v) deleted))
                     (votes db) |}.

(** [INSERT INTO users ... ON CONFLICT (name) DO UPDATE] as issued by
    [upsert({ name }, { onConflict: 'name' })].  On a conflict the
    statement turns into an update of the existing row, which needs an
    [UPDATE] policy: with one the row keeps its name, without one the
    statement is refused. *)
Definition users_upsert (db : Db) (row : users_row) : Db + SqlError :=
  if existsb (fun u => name u =? name row) (users db) then
    if has_policy users_table UPDATE then inl db else inr insufficient_privilege
  else if existsb (fun u => u_id u =? u_id row) (users db) then inr unique_violation
  else inl {| users := (users db ++ [row])%list; posts := posts db; votes := votes db |}.

(** [from('votes').select('*').eq('post_id', id)].  The query has no
    [ORDER BY]: the list is one of the orders the rows may come in. *)
Definition votes_select_by_post (db : Db) (id : string) : list votes_row :=
  filter (fun v => post_id v =? id) (votes db).

(** The writing statements the application sends, one constructor per
    call site: [handleAuth], [handleCreatePost], [handleSaveEdit],
    [handleDelete] and [handleVote]. *)
Inductive Request : Type :=
| UpsertUser (row : users_row)
| InsertPost (row : posts_row)
| UpdatePost (id : string) (c : string) (u : option string)
| DeletePost (id : string) (author : string)
| InsertVote (row : votes_row).

(** A statement under the policies: an insert without a policy is
    refused; an update or a delete without one finds no row to work on
    and succeeds without a change. *)
Definition apply (db : Db) (rq : Request) : Db + SqlError :=
  match rq with
  | UpsertUser row =>
      if has_policy users_table INSERT then users_upsert db row
      else inr insufficient_privilege
  | InsertPost row =>
      if has_policy posts_table INSERT then posts_insert db row
      else inr insufficient_privilege
  | UpdatePost id c u =>
      if has_policy posts_table UPDATE
      then posts_update db (fun p => p_id p =? id) c u
      else inl db
  | DeletePost id author =>
      if has_policy posts_table DELETE
      then inl (posts_delete db (fun p => (p_id p =? id) && (author_name p =? author)))
      else inl db
  | InsertVote row =>
      if has_policy votes_table INSERT then votes_insert db row
      else inr insufficient_privilege
  end.

(** A failed statement leaves the database as it was. *)
Definition step (db : Db) (rq : Request) : Db :=
  match apply db rq with
  | inl db' => db'
  | inr _ => db
  end.

Definition run (db : Db) (rqs : list Request) : Db := fold_left step rqs db.

(** The integrity the constraints on [votes] are there to keep. *)
Record votes_ok (db : Db) : Prop := {
  pkey_unique : NoDup (map v_id (votes db));
  voter_unique : NoDup (map (fun v => (post_id v, user_name v)) (votes db));
  post_exists : forall v, In v (votes db) ->
                exists p, In p (posts db) /\ p_id p = post_id v;
  type_checked : forall v, In v (votes db) -> vote_type_check v = true
}.

(** The integrity the constraints on [users] and [posts] are there to
    keep. *)
Record rows_ok (db : Db) : Prop := {
  users_pkey : NoDup (map u_id (users db));
  users_name_unique : NoDup (map name (users db));
  posts_pkey : NoDup (map p_id (posts db));
  posts_content : forall p, In p (posts db) -> (String.length (content p) <= 500)%nat
}.

End Storage.

(* ------------------------------------------------------------------ *)
(** ** src/components/Post.tsx: votes of one post *)

Module Vote.
(** ['true' | 'fake'] *)
Inductive VoteType : Type := vote_true | vote_fake.

Definition eqb (a b : VoteType) : bool :=
  match a, b with
  | vote_true, vote_true | vote_fake, vote_fake => true
  | _, _ => false
  end.

(** The text stored in [votes.vote_type]. *)
Definition to_text (t : VoteType) : string :=
  match t with vote_true => "true" | vote_fake => "fake" end.

(** [interface Vote] *)
Record t : Type := mk {
  id : string;
  post_id : string;
  user_name : string;
  vote_type : VoteType
}.
End Vote.

Module PostComponent.
Import Vote.

(** The [useState] cells the vote logic reads and writes. *)
Record State : Type := mkState {
  votes : list Vote.t;
  userVote : option VoteType;
  isVoting : bool;
  optimisticVote : option VoteType
}.

Definition initial : State :=
  {| votes := []; userVote := None; isVoting := false; optimisticVote := None |}.

Definition setVotes (f : list Vote.t -> list Vote.t) (s : State) : State :=
  {| votes := f (votes s); userVote := userVote s;
     isVoting := isVoting s; optimisticVote := optimisticVote s |}.

Definition setUserVote (v : option VoteType) (s : State) : State :=
  {| votes := votes s; userVote := v;
     isVoting := isVoting s; optimisticVote := optimisticVote s |}.

Definition setIsVoting (b : bool) (s : State) : State :=
  {| votes := votes s; userVote := userVote s;
     isVoting := b; optimisticVote := optimisticVote s |}.

Definition setOptimisticVote (v : option VoteType) (s : State) : State :=
  {| votes := votes s; userVote := userVote s;
     isVoting := isVoting s; optimisticVote := v |}.

(** A realtime change on [votes], already filtered to this post. *)
Inductive Payload : Type :=
| INSERT (new : Vote.t)
| UPDATE (old new : Vote.t)
| DELETE (old : Vote.t).

(** What leaves the component. *)
Inductive Effect : Type :=
| SupabaseInsert (post_id user_name : string) (vote_type : VoteType)
| ConsoleError (msg : string)
| Alert (msg : string).

(** What the awaited insert comes back with: no error, an [error]
    object with its [code] (absent on the placeholder client), or a
    rejection. *)
Inductive InsertOutcome : Type :=
| Inserted
| Failed (code : option string)
| Rejected (e : string).

Definition is_alert (e : Effect) : bool :=
  match e with Alert _ => true | _ => false end.

Section Props.

(** The props the vote logic uses. *)
Variable id : string.
Variable currentUserName : string.

(** The [postgres_changes] callback of [subscribeToVotes]. *)
Definition on_vote_change (s : State) (payload : Payload) : State :=
  match payload with
  | INSERT newVote =>
      let s1 := setVotes (fun prevVotes => (prevVotes ++ [newVote])%list) s in
      if user_name newVote =? currentUserName
      then setOptimisticVote None (setUserVote (Some (vote_type newVote)) s1)
      else s1
  | DELETE deletedVote =>
      let s1 := setVotes
                  (fun prevVotes =>
                     filter (fun vote => negb (Vote.id vote =? Vote.id deletedVote)) prevVotes)
                  s in
      if user_name deletedVote =? currentUserName
      then setOptimisticVote None (setUserVote None s1)
      else s1
  | UPDATE _ _ => s
  end.

Definition on_vote_changes (s : State) (ps : list Payload) : State :=
  fold_left on_vote_change ps s.

(** The guard [isVoting || userVote || optimisticVote]: both vote
    literals are non-empty strings, so a vote is truthy exactly when it
    is not [null]. *)
Definition handleVote_returns_early (s : State) : bool :=
  isVoting s ||
  match userVote s with Some _ => true | None => false end ||
  match optimisticVote s with Some _ => true | None => false end.

(** [handleVote] up to the [await]. *)
Definition handleVote_begin (s : State) (voteType : VoteType) : State * list Effect :=
  if handleVote_returns_early s then (s, [])
  else (setIsVoting true (setOptimisticVote (Some voteType) s),
        [SupabaseInsert id currentUserName voteType]).

(** [handleVote] from the [await] on, run on the state of that moment. *)
Definition handleVote_settle (s : State) (outcome : InsertOutcome) : State * list Effect :=
  let '(s1, effects) :=
    match outcome with
    | Inserted => (s, [])
    | Failed code =>
        (setOptimisticVote None s,
         ConsoleError "Error voting:" ::
         match code with
         | Some c => if c =? "23505" then []
                     else [Alert "Failed to submit vote. Please try again."]
         | None => [Alert "Failed to submit vote. Please try again."]
         end)
    | Rejected _ =>
        (setOptimisticVote None s,
         [ConsoleError "Error voting:";
          Alert "An unexpected error occurred. Please try again."])
    end in
  (setIsVoting false s1, effects).

(** One whole call with nothing arriving during the [await]. *)
Definition handleVote (s : State) (voteType : VoteType) (outcome : InsertOutcome)
  : State * list Effect :=
  if handleVote_returns_early s then (s, [])
  else
    let '(s1, e1) := handleVote_begin s voteType in
    let '(s2, e2) := handleVote_settle s1 outcome in
    (s2, (e1 ++ e2)%list).

(** A run of clicks on the vote buttons, each call settled before the
    next one. *)
Fixpoint handleVote_calls (s : State) (calls : list (VoteType * InsertOutcome))
  : State * list Effect :=
  match calls with
  | [] => (s, [])
  | (voteType, outcome) :: rest =>
      let '(s1, e1) := handleVote s voteType outcome in
      let '(s2, e2) := handleVote_calls s1 rest in
      (s2, (e1 ++ e2)%list)
  end.

(** The outcome the component sees when its insert runs against the
    tables: the SQLSTATE of the failed constraint becomes [error.code]. *)
Definition outcome_of (r : Storage.Db + Storage.SqlError) : InsertOutcome :=
  match r with
  | inl _ => Inserted
  | inr e => Failed (Some (Storage.sqlstate e))
  end.

(** The row [handleVote] asks for, with the column defaults filled in. *)
Definition vote_row (fresh_id : string) (now : Z) (voteType : VoteType) : Storage.votes_row :=
  {| Storage.v_id := fresh_id; Storage.post_id := id;
     Storage.user_name := currentUserName;
     Storage.vote_type := to_text voteType; Storage.v_created_at := now |}.

(** One whole call with its insert run against the tables. *)
Definition handleVote_on (db : Storage.Db) (fresh_id : string) (now : Z)
    (s : State) (voteType : VoteType) : State * list Effect * Storage.Db :=
  if handleVote_returns_early s then (s, [], db)
  else
    let r := Storage.votes_insert db (vote_row fresh_id now voteType) in
    let '(s', effects) := handleVote s voteType (outcome_of r) in
    (s', effects, match r with inl db' => db' | inr _ => db end).

(** The tallies computed on every render (lines 165-174). *)
Definition currentUserVote (s : State) : option VoteType :=
  match optimisticVote s with
  | Some v => Some v
  | None => userVote s
  end.

Definition baseVotes (s : State) : list Vote.t :=
  filter (fun vote => negb (user_name vote =? currentUserName)) (votes s).

Definition is_current (s : State) (t : VoteType) : bool :=
  match currentUserVote s with
  | Some v => Vote.eqb v t
  | None => false
  end.

Definition trueVotes (s : State) : nat :=
  let n := List.length (filter (fun vote => Vote.eqb (vote_type vote) vote_true) (baseVotes s)) in
  if is_current s vote_true then S n else n.

Definition fakeVotes (s : State) : nat :=
  let n := List.length (filter (fun vote => Vote.eqb (vote_type vote) vote_fake) (baseVotes s)) in
  if is_current s vote_fake then S n else n.

(** The tally as the specification words it: the votes of a type cast
    by somebody else, counted one by one. *)
Fixpoint count_others (t : VoteType) (vs : list Vote.t) : nat :=
  match vs with
  | [] => 0
  | v :: rest =>
      if (user_name v =? currentUserName) then count_others t rest
      else if Vote.eqb (vote_type v) t then S (count_others t rest)
      else count_others t rest
  end.

(** The effective vote: the optimistic one while it is pending,
    otherwise the confirmed one. *)
Definition effective (optimistic confirmed : option VoteType) : option VoteType :=
  match optimistic, confirmed with
  | Some v, _ => Some v
  | None, Some v => Some v
  | None, None => None
  end.

Definition one_if (e : option VoteType) (t : VoteType) : nat :=
  match e with
  | Some v => if Vote.eqb v t then 1 else 0
  | None => 0
  end.

(** What the awaited vote query comes back with: an [error], [data]
    (possibly [null]), or a rejection. *)
Inductive FetchOutcome : Type :=
| FetchError (e : string)
| FetchData (data : option (list Vote.t))
| FetchRejected (e : string).

(** [fetchVotes] once its query has settled.  [captured] is the
    [optimisticVote] of the render whose effect started the fetch: the
    comparison reads that value, not the state of the moment. *)
Definition fetchVotes (captured : option VoteType) (s : State) (outcome : FetchOutcome)
  : State * list Effect :=
  match outcome with
  | FetchError _ => (s, [ConsoleError "Error fetching votes:"])
  | FetchRejected _ => (s, [ConsoleError "Error fetching votes:"])
  | FetchData None => (s, [])
  | FetchData (Some data) =>
      let existingVote := find (fun vote => user_name vote =? currentUserName) data in
      let actualVote := option_map vote_type existingVote in
      let s1 := setUserVote actualVote (setVotes (fun _ => data) s) in
      let same :=
        match captured, actualVote with
        | Some a, Some b => Vote.eqb a b
        | None, None => true
        | _, _ => false
        end in
      (if same then setOptimisticVote None s1 else s1, [])
  end.

Definition is_insert (e : Effect) : bool :=
  match e with SupabaseInsert _ _ _ => true | _ => false end.

(** The author of the post, as passed in the props. *)
Variable authorName : string.

(** What [handleDelete] does to the outside. *)
Inductive DeleteEffect : Type :=
| WindowConfirm (msg : string)
| ConsoleLog (msg : string)
| SupabaseDeletePost (post_id author_name : string)
| DeleteConsoleError (msg : string)
| DeleteAlert (msg : string).

(** What the awaited delete comes back with. *)
Inductive DeleteOutcome : Type :=
| DeleteDone
| DeleteError (e : string)
| DeleteRejected (e : string).

(** [handleDelete]: [isDeleting] is its own state cell, [confirmed] the
    answer to [window.confirm]. *)
Definition handleDelete (isDeleting : bool) (confirmed : bool) (outcome : DeleteOutcome)
  : bool * list DeleteEffect :=
  if negb (authorName =? currentUserName) then (isDeleting, [])
  else
    let ask :=
      WindowConfirm
        "Are you sure you want to delete this post? This action cannot be undone." in
    if negb confirmed then (isDeleting, [ask])
    else
      (false,
       ([ask; ConsoleLog "Attempting to delete post:";
         SupabaseDeletePost id currentUserName] ++
        match outcome with
        | DeleteDone => [ConsoleLog "Post deleted successfully:"]
        | DeleteError _ =>
            [DeleteConsoleError "Error deleting post:";
             DeleteAlert "Failed to delete post. Please try again."]
        | DeleteRejected _ =>
            [DeleteConsoleError "Error deleting post:";
             DeleteAlert "An unexpected error occurred. Please try again."]
        end)%list).

(** The statement a [SupabaseDeletePost] effect stands for:
    [.delete().eq('id', id).eq('author_name', currentUserName)]. *)
Definition delete_request (e : DeleteEffect) : option Storage.Request :=
  match e with
  | SupabaseDeletePost p a => Some (Storage.DeletePost p a)
  | _ => None
  end.

(** A row of [votes] and the [Vote] object the client receives for it. *)
Definition same_vote (r : Storage.votes_row) (v : Vote.t) : Prop :=
  Storage.v_id r = Vote.id v /\
  Storage.post_id r = Vote.post_id v /\
  Storage.user_name r = Vote.user_name v /\
  Storage.vote_type r = to_text (Vote.vote_type v).

End Props.

(** [n] written in decimal, as a template literal prints an integer. *)
Definition show_int (n : Z) : string := NilZero.string_of_int (Z.to_int n).

(** [formatDate]: [date] and [now] are the two [getTime()] values in
    milliseconds; [Math.floor] of a quotient is [Z.div]. *)
Definition formatDate (date now : Z) : string :=
  let diffMs := (now - date)%Z in
  let diffMins := (diffMs / 60000)%Z in
  if (diffMins <? 60)%Z then show_int diffMins ++ "m ago"
  else
    let diffHours := (diffMins / 60)%Z in
    if (diffHours <? 24)%Z then show_int diffHours ++ "h ago"
    else
      let diffDays := (diffHours / 24)%Z in
      show_int diffDays ++ "d ago".

End PostComponent.

(* ------------------------------------------------------------------ *)
(** ** The Feed with incremental reconciliation *)

Module FeedComponent.

(** [interface PostData] *)
Record PostData : Type := mk {
  id : string;
  author_name : string;
  content : string;
  image_url : option string;
  created_at : string
}.

(** A realtime change on [posts]: [payload.old.id] for a delete,
    [payload.new] otherwise. *)
Inductive Payload : Type :=
| DELETE (old_id : string)
| INSERT (new : PostData)
| UPDATE (new : PostData).

(** The [postgres_changes] callback of [subscribeToFeed], as the
    function handed to [setPosts]. *)
Definition on_change (prevPosts : list PostData) (payload : Payload) : list PostData :=
  match payload with
  | DELETE old_id => filter (fun post => negb (id post =? old_id)) prevPosts
  | INSERT new => new :: prevPosts
  | UPDATE new => map (fun post => if id post =? id new then new else post) prevPosts
  end.

(** [handlePostUpdate], the callback handed to every [Post]:
    [updatedImageUrl || null] turns an absent or empty URL into [null]. *)
Definition handlePostUpdate (prevPosts : list PostData)
    (postId updatedContent : string) (updatedImageUrl : option string) : list PostData :=
  map (fun post =>
         if id post =? postId
         then {| id := id post; author_name := author_name post;
                 content := updatedContent;
                 image_url := match updatedImageUrl with
                              | Some u => if u =? "" then None else Some u
                              | None => None
                              end;
                 created_at := created_at post |}
         else post)
      prevPosts.

(** The two state cells of the Feed. *)
Record State : Type := mkState {
  posts : list PostData;
  loading : bool
}.

(** What the awaited posts query comes back with. *)
Inductive QueryOutcome : Type :=
| QueryError (e : string)
| QueryData (data : option (list PostData))
| QueryRejected (e : string).

(** [fetchPosts] once its query has settled: [data || []] on success,
    the list left alone on failure, [loading] off in every case. *)
Definition fetchPosts (s : State) (outcome : QueryOutcome) : State :=
  {| posts := match outcome with
              | QueryData (Some data) => data
              | QueryData None => []
              | QueryError _ | QueryRejected _ => posts s
              end;
     loading := false |}.

(** What the component renders. *)
Inductive View : Type :=
| Spinner
| NoPostsYet
| PostList (keys : list string).

Definition render (s : State) : View :=
  if loading s then Spinner
  else if Nat.eqb (List.length (posts s)) 0 then NoPostsYet
  else PostList (map id (posts s)).

(** A row of [posts] and the object the client holds for it. *)
Definition same_post (r : Storage.posts_row) (p : PostData) : Prop :=
  Storage.p_id r = id p /\
  Storage.author_name r = author_name p /\
  Storage.content r = content p /\
  Storage.image_url r = image_url p.

End FeedComponent.

(* ------------------------------------------------------------------ *)
(** ** src/App.tsx: the session *)

Module App.

(** The state cells of [App] and the [truthvote-user] entry of
    [localStorage] ([None] when the key is not set). *)
Record State : Type := mkState {
  currentUser : option string;
  showAuthModal : bool;
  storedUser : option string
}.

(** A string or [null] in a condition: [null] and the empty string are
    falsy. *)
Definition truthy_user (u : option string) : bool :=
  match u with
  | Some n => negb (n =? "")
  | None => false
  end.

(** A fresh page load on a browser whose storage holds [stored]. *)
Definition load (stored : option string) : State :=
  {| currentUser := None; showAuthModal := false; storedUser := stored |}.

(** The mount effect. *)
Definition on_mount (s : State) : State :=
  if truthy_user (storedUser s)
  then {| currentUser := storedUser s; showAuthModal := showAuthModal s;
          storedUser := storedUser s |}
  else {| currentUser := currentUser s; showAuthModal := true;
          storedUser := storedUser s |}.

Inductive Effect : Type :=
| SupabaseUpsertUser (name : string)
| SupabaseInsertPost (author_name content : string) (image_url : option string)
| ConsoleError (msg : string)
| Alert (msg : string).

(** What an awaited write comes back with. *)
Inductive WriteOutcome : Type :=
| WriteDone
| WriteError (e : string)
| WriteRejected (e : string).

(** [handleAuth] *)
Definition handleAuth (s : State) (name : string) (outcome : WriteOutcome)
  : State * list Effect :=
  match outcome with
  | WriteDone =>
      ({| currentUser := Some name; showAuthModal := false; storedUser := Some name |},
       [SupabaseUpsertUser name])
  | WriteError _ => (s, [SupabaseUpsertUser name])
  | WriteRejected _ => (s, [SupabaseUpsertUser name; ConsoleError "Auth error:"])
  end.

(** [handleLogout] *)
Definition handleLogout (s : State) : State :=
  {| currentUser := None; showAuthModal := true; storedUser := None |}.

(** [handleCreatePost] *)
Definition handleCreatePost (s : State) (content : string) (imageUrl : option string)
    (outcome : WriteOutcome) : list Effect :=
  if negb (truthy_user (currentUser s)) then []
  else
    match currentUser s with
    | None => []
    | Some user =>
        SupabaseInsertPost user content imageUrl ::
        match outcome with
        | WriteDone => []
        | WriteError _ =>
            [ConsoleError "Error creating post:";
             Alert "Failed to create post. Please try again."]
        | WriteRejected _ =>
            [ConsoleError "Error:";
             Alert "An unexpected error occurred. Please try again."]
        end
    end.

(** The outcome of a statement run against the tables. *)
Definition outcome_of (r : Storage.Db + Storage.SqlError) : WriteOutcome :=
  match r with
  | inl _ => WriteDone
  | inr e => WriteError (Storage.sqlstate e)
  end.

(** The row [handleCreatePost] asks for, with the column defaults
    filled in. *)
Definition post_row (fresh_id : string) (now : Z) (e : Effect) : option Storage.posts_row :=
  match e with
  | SupabaseInsertPost a c u =>
      Some {| Storage.p_id := fresh_id; Storage.author_name := a; Storage.content := c;
              Storage.image_url := u; Storage.p_created_at := now |}
  | _ => None
  end.

End App.

(* ------------------------------------------------------------------ *)
(** ** src/lib/supabase.ts: the placeholder client *)

Module SupabaseClient.
Import Js.

(** [!v] for an environment variable: unset or empty. *)
Definition unset (v : option string) : bool :=
  match v with
  | Some s => s =? ""
  | None => true
  end.

Definition is_value (v : option string) (literal : string) : bool :=
  match v with
  | Some s => s =? literal
  | None => false
  end.

(** The condition under which the module exports the placeholder
    instead of a real client. *)
Definition uses_placeholder (supabaseUrl supabaseAnonKey : option string) : bool :=
  unset supabaseUrl || unset supabaseAnonKey ||
  is_value supabaseUrl "https://placeholder.supabase.co" ||
  is_value supabaseAnonKey "placeholder_anon_key".

(** The [data] of a resolved placeholder call: [[]] or [null]. *)
Inductive MockData : Type := EmptyArray | Null.

(** What a call chain on the placeholder has in hand: the object
    returned by [from()], or a promise resolved with [{ data, error }],
    the error being an object with a [message] and no [code]. *)
Inductive Receiver : Type :=
| QueryBuilder
| Resolved (data : MockData) (error_message : option string).

(** One method call.  The builder has [select], [insert], [upsert],
    [eq] and [order]; calling anything else on it, or any of the query
    methods on a promise, is a [TypeError]. *)
Definition call (r : Receiver) (method : string) : Exc Receiver :=
  match r with
  | QueryBuilder =>
      if method =? "select" then Return (Resolved EmptyArray None)
      else if (method =? "insert") || (method =? "upsert")
           then Return (Resolved Null (Some "Supabase not configured"))
      else if (method =? "eq") || (method =? "order") then Return QueryBuilder
      else Throw "TypeError"
  | Resolved _ _ => Throw "TypeError"
  end.

(** [supabase.from(table).m1(...).m2(...)...] *)
Definition chain (methods : list string) : Exc Receiver :=
  fold_left (fun acc m => bind acc (fun r => call r m)) methods (Return QueryBuilder).

(** The chains of the call sites. *)
Definition fetchVotes_chain : list string := ["select"; "eq"].
Definition handleVote_chain : list string := ["insert"].
Definition handleDelete_chain : list string := ["delete"; "eq"; "eq"].
Definition fetchPosts_chain : list string := ["select"; "order"].
Definition handleAuth_chain : list string := ["upsert"].
Definition handleCreatePost_chain : list string := ["insert"; "select"].

(** What each handler sees when it awaits its chain and destructures
    the result; awaiting the builder itself gives an object without
    [data] and [error]. *)
Definition vote_outcome (c : Exc Receiver) : PostComponent.InsertOutcome :=
  match c with
  | Throw e => PostComponent.Rejected e
  | Return (Resolved _ (Some _)) => PostComponent.Failed None
  | Return (Resolved _ None) | Return QueryBuilder => PostComponent.Inserted
  end.

Definition votes_outcome (c : Exc Receiver) : PostComponent.FetchOutcome :=
  match c with
  | Throw e => PostComponent.FetchRejected e
  | Return (Resolved _ (Some m)) => PostComponent.FetchError m
  | Return (Resolved EmptyArray None) => PostComponent.FetchData (Some [])
  | Return (Resolved Null None) | Return QueryBuilder => PostComponent.FetchData None
  end.

Definition delete_outcome (c : Exc Receiver) : PostComponent.DeleteOutcome :=
  match c with
  | Throw e => PostComponent.DeleteRejected e
  | Return (Resolved _ (Some m)) => PostComponent.DeleteError m
  | Return (Resolved _ None) | Return QueryBuilder => PostComponent.DeleteDone
  end.

Definition posts_outcome (c : Exc Receiver) : FeedComponent.QueryOutcome :=
  match c with
  | Throw e => FeedComponent.QueryRejected e
  | Return (Resolved _ (Some m)) => FeedComponent.QueryError m
  | Return (Resolved EmptyArray None) => FeedComponent.QueryData (Some [])
  | Return (Resolved Null None) | Return QueryBuilder => FeedComponent.QueryData None
  end.

Definition write_outcome (c : Exc Receiver) : App.WriteOutcome :=
  match c with
  | Throw e => App.WriteRejected e
  | Return (Resolved _ (Some m)) => App.WriteError m
  | Return (Resolved _ None) | Return QueryBuilder => App.WriteDone
  end.

End SupabaseClient.

(* ------------------------------------------------------------------ *)
(** * Properties *)

(** ** Aggregation of the two provider results *)

Section AggregationProofs.
Import Js Analyzer.
Local Open Scope Q_scope.




Lemma Math_round_bounds (x : Q) (lo hi : Z) :
  inject_Z lo <= x -> x <= inject_Z hi ->
  inject_Z lo <= Math_round x /\ Math_round x <= inject_Z hi.
Proof.
  intros Hlo Hhi. unfold Math_round.
  split; rewrite <- Zle_Qle.
  - replace lo with (Qfloor (inject_Z lo)) by apply Qfloor_Z.
    apply Qfloor_resp_le. lra.
  - assert (H : (Qfloor (x + (1 # 2)) < hi + 1)%Z); [|lia].
    rewrite Zlt_Qlt. rewrite inject_Z_plus. change (inject_Z 1) with 1.
    pose proof (Qfloor_le (x + (1 # 2))). lra.
Qed.


Lemma round_ties_even_cases (y : Q) :
  round_ties_even y = Qfloor y \/
  (round_ties_even y = (Qfloor y + 1)%Z /\ inject_Z (Qfloor y) + (1 # 2) <= y).
Proof.
  unfold round_ties_even.
  destruct (Qcompare_spec (y - inject_Z (Qfloor y)) (1 # 2)) as [E|L|G].
  - destruct (Z.even (Qfloor y)); [left; reflexivity|right; split; [reflexivity|lra]].
  - left. reflexivity.
  - right. split; [reflexivity|lra].
Qed.


Lemma round_ties_even_le (y : Q) (m : Z) : y <= inject_Z m -> (round_ties_even y <= m)%Z.
Proof.
  intros Hy. assert (F : (Qfloor y <= m)%Z).
  { rewrite <- (Qfloor_Z m). apply Qfloor_resp_le, Hy. }
  destruct (round_ties_even_cases y) as [H|[H Hh]]; [lia|].
  rewrite H. assert (L : (Qfloor y < m)%Z); [|lia].
  rewrite Zlt_Qlt. lra.
Qed.

Lemma round_ties_even_nonneg (y : Q) : 0 <= y -> (0 <= round_ties_even y)%Z.
Proof.
  intros Hy. assert (F : (0 <= Qfloor y)%Z).
  { change 0%Z with (Qfloor 0). apply Qfloor_resp_le, Hy. }
  destruct (round_ties_even_cases y) as [H|[H _]]; lia.
Qed.

Lemma ilog2_le (a : Q) (b : Z) :
  0 < a -> (0 <= b)%Z -> a <= inject_Z (2 ^ b) -> (ilog2 a <= b)%Z.
Proof.
  intros Ha Hb Hle. unfold ilog2.
  assert (K : (Z.log2 (Qnum a) - Z.log2 (Z.pos (Qden a)) <= b)%Z).
  { destruct a as [p q]. cbn [Qnum Qden].
    unfold Qlt in Ha. unfold Qle in Hle. cbn in Ha, Hle.
    assert (Hp : (0 < p)%Z) by lia.
    assert (H1 : (p <= Z.pos q * 2 ^ b)%Z) by lia.
    apply Z.log2_le_mono in H1. rewrite Z.log2_mul_pow2 in H1 by lia. lia. }
  destruct (Qle_bool _ a); lia.
Qed.

(** Below [2^50] the quantum is a negative power of two. *)
Lemma quantum_small (a : Q) :
  0 < a -> a <= inject_Z (2 ^ 50) ->
  exists d : Z, (1 <= d)%Z /\
    2 ^ (Z.max (ilog2 a - 52) (-1074)) == / inject_Z (2 ^ d).
Proof.
  intros Ha Hle. pose proof (ilog2_le a 50 Ha ltac:(lia) Hle) as Hk.
  set (e := Z.max (ilog2 a - 52) (-1074)).
  exists (- e)%Z. split; [lia|].
  rewrite Zpower_Qpower by lia. change (inject_Z 2) with 2.
  rewrite <- Qpower_opp. rewrite Z.opp_involutive. reflexivity.
Qed.

Lemma pow2_inject_pos (d : Z) : (0 <= d)%Z -> 0 < inject_Z (2 ^ d).
Proof.
  intros Hd. change 0 with (inject_Z 0). rewrite <- Zlt_Qlt. apply Z.pow_pos_nonneg; lia.
Qed.


Lemma to_Number_bounds (x : Q) (b : Z) :
  0 <= x -> x <= inject_Z b -> (b <= 2 ^ 50)%Z ->
  0 <= to_Number x /\ to_Number x <= inject_Z b.
Proof.
  intros H0 Hb Hsmall. unfold to_Number.
  destruct (Qeq_bool x 0) eqn:E0; [split; lra|].
  assert (Hx : ~ x == 0) by (intros H; apply Qeq_bool_iff in H; congruence).
  assert (Hpos : 0 < x). { destruct (Qlt_le_dec 0 x) as [H|H]; [exact H|]. exfalso. apply Hx. lra. }
  assert (S : Qlt_bool x 0 = false) by (unfold Qlt_bool; apply negb_false_iff, Qle_bool_iff, H0).
  rewrite S. pose proof (Qabs_pos x H0) as Habs.
  assert (Ha : 0 < Qabs x) by lra.
  assert (Hle : Qabs x <= inject_Z (2 ^ 50)).
  { rewrite Habs. apply Qle_trans with (inject_Z b); [exact Hb|]. rewrite <- Zle_Qle. exact Hsmall. }
  destruct (quantum_small _ Ha Hle) as (d & Hd & Hq).
  set (e := Z.max (ilog2 (Qabs x) - 52) (-1074)) in *.
  pose proof (pow2_inject_pos d ltac:(lia)) as HP.
  set (n := round_ties_even (Qabs x / 2 ^ e)).
  assert (Hy : Qabs x / 2 ^ e == x * inject_Z (2 ^ d)).
  { rewrite Hq, Habs. unfold Qdiv. rewrite Qinv_involutive. reflexivity. }
  assert (Hn0 : (0 <= n)%Z).
  { apply round_ties_even_nonneg. rewrite Hy. apply Qmult_le_0_compat; lra. }
  assert (Hnb : (n <= b * 2 ^ d)%Z).
  { apply round_ties_even_le. rewrite Hy, inject_Z_mult.
    apply Qmult_le_compat_r; lra. }
  rewrite Zle_Qle in Hn0, Hnb. rewrite inject_Z_mult in Hnb. change (inject_Z 0) with 0 in Hn0.
  rewrite Hq. split.
  - apply Qmult_le_0_compat; [exact Hn0|]. apply Qlt_le_weak, Qinv_lt_0_compat, HP.
  - apply Qle_shift_div_r; [exact HP|exact Hnb].
Qed.






(** C8: the combined reasoning is the OpenAI lines, each behind
    "OpenAI: ", in order, then the Gemini lines, each behind "Gemini: ",
    in order. *)
Theorem getAnalysis_reasoning_order (o g : AnalysisResult.t) :
  let c := getAnalysis o g in
  let ro := AnalysisResult.reasoning o in
  let rg := AnalysisResult.reasoning g in
  CombinedAnalysis.reasoning c =
    (map (String.append "OpenAI: ") ro ++ map (String.append "Gemini: ") rg)%list /\
  List.length (CombinedAnalysis.reasoning c) = (List.length ro + List.length rg)%nat /\
  (forall i r, nth_error ro i = Some r ->
     nth_error (CombinedAnalysis.reasoning c) i = Some ("OpenAI: " ++ r)%string) /\
  (forall j r, nth_error rg j = Some r ->
     nth_error (CombinedAnalysis.reasoning c) (List.length ro + j) = Some ("Gemini: " ++ r)%string).
Proof.
  cbv zeta. unfold getAnalysis. cbn [CombinedAnalysis.reasoning].
  split; [reflexivity|]. split.
  - rewrite length_app, !length_map. reflexivity.
  - split.
    + intros i r Hi. rewrite nth_error_app1.
      * rewrite nth_error_map, Hi. reflexivity.
      * rewrite length_map. apply nth_error_Some. congruence.
    + intros j r Hj. rewrite nth_error_app2.
      * rewrite length_map. replace (List.length (AnalysisResult.reasoning o) + j
                                     - List.length (AnalysisResult.reasoning o))%nat with j by lia.
        rewrite nth_error_map, Hj. reflexivity.
      * rewrite length_map. lia.
Qed.

Lemma getAnalysis_reasoning_order_witness :
  nth_error
    (CombinedAnalysis.reasoning
       (getAnalysis (AnalysisResult.mk "True" 80 ["a"; "b"] []) (AnalysisResult.mk "True" 90 ["c"] [])))
    2 = Some "Gemini: c"%string.
Proof.
  exact (proj2 (proj2 (proj2
           (getAnalysis_reasoning_order
              (AnalysisResult.mk "True" 80 ["a"; "b"] []) (AnalysisResult.mk "True" 90 ["c"] []))))
           0%nat "c"%string eq_refl).
Defined.

(** C10: when both provider rates lie in [0, 100], so does the combined
    rate, and the combined verdict is one of the three literals; the
    provider verdicts are copied into [models] and have no influence on
    the combined verdict. *)
Theorem getAnalysis_range (o g : AnalysisResult.t) :
  0 <= AnalysisResult.true_rate o -> AnalysisResult.true_rate o <= 100 ->
  0 <= AnalysisResult.true_rate g -> AnalysisResult.true_rate g <= 100 ->
  let c := getAnalysis o g in
  (0 <= CombinedAnalysis.true_rate c /\ CombinedAnalysis.true_rate c <= 100) /\
  (CombinedAnalysis.verdict c = "True"%string \/
   CombinedAnalysis.verdict c = "False"%string \/
   CombinedAnalysis.verdict c = "Mixed"%string) /\
  CombinedAnalysis.models c = (o, g) /\
  (forall v1 v2 : string,
     CombinedAnalysis.verdict
       (getAnalysis
          (AnalysisResult.mk v1 (AnalysisResult.true_rate o)
             (AnalysisResult.reasoning o) (AnalysisResult.sources o))
          (AnalysisResult.mk v2 (AnalysisResult.true_rate g)
             (AnalysisResult.reasoning g) (AnalysisResult.sources g)))
     = CombinedAnalysis.verdict c).
Proof.
  intros Ho0 Ho1 Hg0 Hg1 c. subst c. unfold getAnalysis.
  cbn [CombinedAnalysis.true_rate CombinedAnalysis.verdict CombinedAnalysis.models
       AnalysisResult.true_rate].
  split.
  - assert (Hs : 0 <= Number_add (AnalysisResult.true_rate o) (AnalysisResult.true_rate g) /\
                 Number_add (AnalysisResult.true_rate o) (AnalysisResult.true_rate g)
                 <= inject_Z 200).
    { apply to_Number_bounds; [lra|change (inject_Z 200) with 200; lra|lia]. }
    destruct Hs as [Hs0 Hs1]. change (inject_Z 200) with 200 in Hs1.
    apply (Math_round_bounds _ 0 100); change (inject_Z 0) with 0;
      apply (to_Number_bounds _ 100).
    + apply Qle_shift_div_l; [reflexivity|lra].
    + change (inject_Z 100) with 100. apply Qle_shift_div_r; [reflexivity|lra].
    + lia.
    + apply Qle_shift_div_l; [reflexivity|lra].
    + change (inject_Z 100) with 100. apply Qle_shift_div_r; [reflexivity|lra].
    + lia.
  - split.
    + destruct (Qlt_bool 70 _); [left; reflexivity|].
      destruct (Qlt_bool _ 30); [right; left|right; right]; reflexivity.
    + split; reflexivity.
Qed.

Lemma getAnalysis_range_witness :
  let c := getAnalysis (AnalysisResult.mk "nonsense" 100 [] []) (AnalysisResult.mk "" 99 [] []) in
  (0 <= CombinedAnalysis.true_rate c /\ CombinedAnalysis.true_rate c <= 100) /\
  CombinedAnalysis.verdict c = "True"%string.
Proof.
  pose proof (getAnalysis_range
                (AnalysisResult.mk "nonsense" 100 [] []) (AnalysisResult.mk "" 99 [] [])
                ltac:(unfold Qle; simpl; lia) ltac:(unfold Qle; simpl; lia)
                ltac:(unfold Qle; simpl; lia) ltac:(unfold Qle; simpl; lia)) as H.
  cbv zeta in *. split; [exact (proj1 H)|reflexivity].
Defined.

End AggregationProofs.

(** ** The two provider calls *)

Section ProviderProofs.
Import Js Analyzer.

Variable JSON_parse : string -> option JsValue.
Variable openai_configured genAI_configured : bool.
Variable openai_create : string -> OpenAIReply.
Variable gemini_generate : string -> GeminiReply.
Variable currentDate : string.

Lemma placeholder_is_placeholder (line : string) : is_placeholder (placeholder line).
Proof. repeat split. exists line. reflexivity. Qed.









Lemma caught_total {A} (body : Exc A) (fallback : A) :
  exists r, try_catch body (fun _ => Return fallback) = Return r.
Proof. destruct body; cbn; eexists; reflexivity. Qed.

Lemma openai_fails_caught (reply : OpenAIReply) (fallback : RawAnalysis) :
  openai_configured = true ->
  openai_fails JSON_parse openai_configured reply ->
  try_catch (bind (openai_parsed JSON_parse reply) normalize) (fun _ => Return fallback)
  = Return fallback.
Proof.
  intros Hc [Hf|[[e ->]|[->|(c & rest & -> & [Hp|Hp])]]];
    [congruence|reflexivity|reflexivity| |];
    unfold openai_parsed, parse_or_throw; rewrite Hp; reflexivity.
Qed.

Lemma gemini_fails_caught (reply : GeminiReply) (fallback : RawAnalysis) :
  genAI_configured = true ->
  gemini_fails JSON_parse genAI_configured reply ->
  try_catch (bind (gemini_parsed JSON_parse reply) normalize) (fun _ => Return fallback)
  = Return fallback.
Proof.
  intros Hc [Hf|[[e ->]|(text & -> & Hm)]]; [congruence|reflexivity|].
  unfold gemini_parsed, parse_or_throw. destruct (match_braces text) as [m|]; [|reflexivity].
  destruct Hm as [Hm|Hm]; rewrite Hm; reflexivity.
Qed.

Lemma analyzeWithOpenAI_returns (claim webContext : string) :
  exists r,
    analyzeWithOpenAI JSON_parse openai_configured openai_create currentDate claim webContext
      = Return r.
Proof.
  unfold analyzeWithOpenAI. destruct (negb openai_configured).
  - eexists. reflexivity.
  - apply caught_total.
Qed.

Lemma analyzeWithGemini_returns (claim webContext : string) :
  exists r,
    analyzeWithGemini JSON_parse genAI_configured gemini_generate currentDate claim webContext
      = Return r.
Proof.
  unfold analyzeWithGemini. destruct (negb genAI_configured).
  - eexists. reflexivity.
  - apply caught_total.
Qed.

(** C4: whatever the claim and the web context, each provider call
    returns a result and throws nothing; when the client is not
    configured, the call throws, or the reply holds no parseable JSON,
    that result is one of the two fixed placeholders of the provider:
    verdict "Mixed", rate 50, one line of reasoning, no sources. *)
Theorem analyzers_never_throw (claim webContext : string) :
  (exists r,
     analyzeWithOpenAI JSON_parse openai_configured openai_create currentDate claim webContext
       = Return r /\
     (openai_fails JSON_parse openai_configured
        (openai_create (openai_prompt currentDate claim webContext)) ->
      is_placeholder r /\
      (r = placeholder "OpenAI API key not configured" \/
       r = placeholder "OpenAI analysis temporarily unavailable"))) /\
  (exists r,
     analyzeWithGemini JSON_parse genAI_configured gemini_generate currentDate claim webContext
       = Return r /\
     (gemini_fails JSON_parse genAI_configured
        (gemini_generate (gemini_prompt currentDate claim webContext)) ->
      is_placeholder r /\
      (r = placeholder "Gemini API key not configured" \/
       r = placeholder "Gemini analysis temporarily unavailable"))).
Proof.
  split.
  - destruct (analyzeWithOpenAI_returns claim webContext) as [r Hr].
    exists r. split; [exact Hr|]. intros Hf.
    unfold analyzeWithOpenAI in Hr. cbv zeta in Hr.
    destruct (sumbool_of_bool openai_configured) as [Hc|Hc]; rewrite Hc in Hr; cbn [negb] in Hr.
    + rewrite (openai_fails_caught _ _ Hc Hf) in Hr. injection Hr as <-.
      split; [apply placeholder_is_placeholder|right; reflexivity].
    + injection Hr as <-. split; [apply placeholder_is_placeholder|left; reflexivity].
  - destruct (analyzeWithGemini_returns claim webContext) as [r Hr].
    exists r. split; [exact Hr|]. intros Hf.
    unfold analyzeWithGemini in Hr. cbv zeta in Hr.
    destruct (sumbool_of_bool genAI_configured) as [Hc|Hc]; rewrite Hc in Hr; cbn [negb] in Hr.
    + rewrite (gemini_fails_caught _ _ Hc Hf) in Hr. injection Hr as <-.
      split; [apply placeholder_is_placeholder|right; reflexivity].
    + injection Hr as <-. split; [apply placeholder_is_placeholder|left; reflexivity].
Qed.


End ProviderProofs.

(** An OpenAI completion that does not parse. *)
Lemma analyzers_never_throw_witness :
  exists r,
    Analyzer.analyzeWithOpenAI (fun _ => None) true
      (fun _ => Analyzer.Completion [Some "oops"]) "2025-01-01" "claim" "" = Js.Return r /\
    Analyzer.is_placeholder r.
Proof.
  destruct (proj1 (analyzers_never_throw (fun _ => None) true false
                     (fun _ => Analyzer.Completion [Some "oops"])
                     (fun _ => Analyzer.GenerateRejects "x")
                     "2025-01-01" "claim" "")) as (r & Hr & Hp).
  exists r. split; [exact Hr|]. apply Hp.
  right. right. right. exists (Some "oops"), []. split; [reflexivity|left; reflexivity].
Defined.


(** ** The vote tallies *)

Section TallyProofs.
Import Vote PostComponent.
Local Open Scope nat_scope.
Local Open Scope string_scope.

Variable currentUserName : string.

Lemma count_others_filter (t : VoteType) (vs : list Vote.t) :
  count_others currentUserName t vs =
  List.length
    (filter (fun vote => Vote.eqb (vote_type vote) t)
       (filter (fun vote => negb (user_name vote =? currentUserName)) vs)).
Proof.
  induction vs as [|v rest IH]; [reflexivity|].
  cbn [count_others filter].
  destruct (user_name v =? currentUserName); cbn [negb]; [exact IH|].
  cbn [filter]. destruct (Vote.eqb (vote_type v) t); cbn [List.length]; congruence.
Qed.

Lemma count_others_app (t : VoteType) (vs ws : list Vote.t) :
  count_others currentUserName t (vs ++ ws) =
  count_others currentUserName t vs + count_others currentUserName t ws.
Proof.
  induction vs as [|v rest IH]; [reflexivity|].
  cbn [app count_others].
  destruct (user_name v =? currentUserName); [exact IH|].
  destruct (Vote.eqb (vote_type v) t); cbn; congruence.
Qed.

Lemma count_others_own (t : VoteType) (mine : list Vote.t) :
  Forall (fun v => user_name v = currentUserName) mine ->
  count_others currentUserName t mine = 0.
Proof.
  induction 1 as [|v rest Hv _ IH]; [reflexivity|].
  cbn [count_others]. rewrite Hv, String.eqb_refl. exact IH.
Qed.

Lemma count_others_total (vs : list Vote.t) :
  count_others currentUserName vote_true vs + count_others currentUserName vote_fake vs =
  List.length (filter (fun vote => negb (user_name vote =? currentUserName)) vs).
Proof.
  induction vs as [|v rest IH]; [reflexivity|].
  cbn [count_others filter].
  destruct (user_name v =? currentUserName); cbn [negb]; [exact IH|].
  cbn [List.length]. destruct (vote_type v); cbn [Vote.eqb]; lia.
Qed.

Lemma is_current_effective (s : State) (t : VoteType) :
  (if is_current s t then 1 else 0) = one_if (effective (optimisticVote s) (userVote s)) t.
Proof.
  unfold is_current, currentUserVote, effective, one_if.
  destruct (optimisticVote s) as [o|], (userVote s) as [u|]; reflexivity.
Qed.

Lemma trueVotes_spec (s : State) :
  trueVotes currentUserName s =
  count_others currentUserName vote_true (votes s) +
  one_if (effective (optimisticVote s) (userVote s)) vote_true.
Proof.
  rewrite <- is_current_effective, count_others_filter. unfold trueVotes, baseVotes.
  destruct (is_current s vote_true); lia.
Qed.

Lemma fakeVotes_spec (s : State) :
  fakeVotes currentUserName s =
  count_others currentUserName vote_fake (votes s) +
  one_if (effective (optimisticVote s) (userVote s)) vote_fake.
Proof.
  rewrite <- is_current_effective, count_others_filter. unfold fakeVotes, baseVotes.
  destruct (is_current s vote_fake); lia.
Qed.

(** C2: the displayed tallies are the votes of each type cast by other
    users plus one in the bucket of the effective vote (the optimistic
    vote if one is pending, else the confirmed one, else nothing); rows
    of the current user in the vote list add nothing, so the user is
    counted at most once, whatever realtime events came before. *)
Theorem tallies_count_user_once (s : State) :
  let e := effective (optimisticVote s) (userVote s) in
  trueVotes currentUserName s =
    count_others currentUserName vote_true (votes s) + one_if e vote_true /\
  fakeVotes currentUserName s =
    count_others currentUserName vote_fake (votes s) + one_if e vote_fake /\
  trueVotes currentUserName s + fakeVotes currentUserName s =
    List.length (baseVotes currentUserName s) + match e with Some _ => 1 | None => 0 end /\
  (forall mine,
     Forall (fun v => user_name v = currentUserName) mine ->
     let s' := setVotes (fun vs => (vs ++ mine)%list) s in
     trueVotes currentUserName s' = trueVotes currentUserName s /\
     fakeVotes currentUserName s' = fakeVotes currentUserName s) /\
  (forall payloads,
     let s' := on_vote_changes currentUserName s payloads in
     let e' := effective (optimisticVote s') (userVote s') in
     trueVotes currentUserName s' =
       count_others currentUserName vote_true (votes s') + one_if e' vote_true /\
     fakeVotes currentUserName s' =
       count_others currentUserName vote_fake (votes s') + one_if e' vote_fake).
Proof.
  cbv zeta. split; [apply trueVotes_spec|]. split; [apply fakeVotes_spec|]. split.
  - rewrite trueVotes_spec, fakeVotes_spec. unfold baseVotes.
    rewrite <- count_others_total.
    destruct (effective (optimisticVote s) (userVote s)) as [[|]|]; cbn; lia.
  - split.
    + intros mine Hmine. rewrite !trueVotes_spec, !fakeVotes_spec. cbn.
      rewrite !count_others_app, !(count_others_own _ _ Hmine). lia.
    + intros payloads. split; [apply trueVotes_spec|apply fakeVotes_spec].
Qed.

End TallyProofs.

(** The optimistic marker and the confirmed row of the same user,
    present together, still count once. *)
Lemma tallies_count_user_once_witness :
  let me := "ann" in
  let s := {| PostComponent.votes := [Vote.mk "v1" "p" "bob" Vote.vote_true];
              PostComponent.userVote := Some Vote.vote_true;
              PostComponent.isVoting := false;
              PostComponent.optimisticVote := Some Vote.vote_true |} in
  let s' := PostComponent.setVotes
              (fun vs => (vs ++ [Vote.mk "v2" "p" "ann" Vote.vote_true])%list) s in
  PostComponent.trueVotes me s' = PostComponent.trueVotes me s /\
  PostComponent.trueVotes me s = 2%nat.
Proof.
  cbv zeta. split; [|reflexivity].
  refine (proj1 (proj1 (proj2 (proj2 (proj2 (tallies_count_user_once "ann" _))))
                   [Vote.mk "v2" "p" "ann" Vote.vote_true] _)).
  repeat constructor.
Defined.

(** ** The tables *)

Section StorageProofs.
Import Storage.

Lemma existsb_false_forall {A} (f : A -> bool) (l : list A) :
  existsb f l = false -> forall x, In x l -> f x = false.
Proof.
  intros H x Hx. destruct (f x) eqn:E; [|reflexivity].
  assert (existsb f l = true) by (apply existsb_exists; eauto). congruence.
Qed.

Lemma NoDup_map_snoc {A B} (f : A -> B) (l : list A) (x : A) :
  NoDup (map f l) -> (forall y, In y l -> f y <> f x) -> NoDup (map f (l ++ [x])).
Proof.
  intros Hnd Hfresh. rewrite map_app. apply NoDup_app; [exact Hnd| |].
  - cbn. constructor; [intros []|constructor].
  - intros b Hb [<-|[]]. apply in_map_iff in Hb as (y & Hy & Hin).
    exact (Hfresh y Hin Hy).
Qed.

Lemma NoDup_map_filter {A B} (f : A -> B) (g : A -> bool) (l : list A) :
  NoDup (map f l) -> NoDup (map f (filter g l)).
Proof.
  induction l as [|a l IH]; [trivial|]. cbn [map filter]. intros Hnd.
  apply NoDup_cons_iff in Hnd as [Hnotin Hnd].
  destruct (g a); [|exact (IH Hnd)].
  cbn [map]. constructor; [|exact (IH Hnd)].
  intros Hin. apply Hnotin. apply in_map_iff in Hin as (y & Hy & Hin).
  apply filter_In in Hin as [Hin _]. apply in_map_iff. eauto.
Qed.

Lemma same_voter_false (a b : votes_row) :
  same_voter a b = false -> (post_id b, user_name b) <> (post_id a, user_name a).
Proof.
  unfold same_voter. intros H E. injection E as E1 E2.
  rewrite E1, E2, !String.eqb_refl in H. discriminate.
Qed.

Lemma same_voter_true (a b : votes_row) :
  post_id a = post_id b -> user_name a = user_name b -> same_voter a b = true.
Proof.
  unfold same_voter. intros -> ->. rewrite !String.eqb_refl. reflexivity.
Qed.

Lemma votes_insert_ok (db db' : Db) (row : votes_row) :
  votes_ok db -> votes_insert db row = inl db' -> votes_ok db'.
Proof.
  intros [Hpk Hvu Hfk Hck]. unfold votes_insert.
  destruct (vote_type_check row) eqn:Ec; cbn [negb]; [|discriminate].
  destruct (existsb (fun r => v_id r =? v_id row) (votes db)) eqn:Epk; [discriminate|].
  destruct (existsb (same_voter row) (votes db)) eqn:Evu; [discriminate|].
  destruct (existsb (fun p => p_id p =? post_id row) (posts db)) eqn:Efk;
    cbn [negb]; [|discriminate].
  intros H. injection H as <-. constructor; cbn [votes posts].
  - apply NoDup_map_snoc; [exact Hpk|]. intros y Hy E.
    pose proof (existsb_false_forall _ _ Epk y Hy) as F. cbn in F.
    rewrite E, String.eqb_refl in F. discriminate.
  - apply NoDup_map_snoc; [exact Hvu|]. intros y Hy.
    apply same_voter_false. exact (existsb_false_forall _ _ Evu y Hy).
  - intros v Hv. apply in_app_or in Hv as [Hv|[<-|[]]]; [exact (Hfk v Hv)|].
    apply existsb_exists in Efk as (p & Hp & E). exists p. split; [exact Hp|].
    apply String.eqb_eq, E.
  - intros v Hv. apply in_app_or in Hv as [Hv|[<-|[]]]; [exact (Hck v Hv)|exact Ec].
Qed.

Lemma posts_delete_ok (db : Db) (where_ : posts_row -> bool) :
  votes_ok db -> votes_ok (posts_delete db where_).
Proof.
  intros [Hpk Hvu Hfk Hck]. constructor; cbn [posts_delete votes posts].
  - apply NoDup_map_filter, Hpk.
  - apply NoDup_map_filter, Hvu.
  - intros v Hv. apply filter_In in Hv as [Hv Hkeep].
    destruct (Hfk v Hv) as (p & Hp & E). exists p. split; [|exact E].
    apply filter_In. split; [exact Hp|].
    destruct (where_ p) eqn:W; [|reflexivity]. exfalso.
    apply negb_true_iff in Hkeep.
    assert (F : existsb (fun q => p_id q =? post_id v) (filter where_ (posts db)) = true).
    { apply existsb_exists. exists p. split.
      - apply filter_In. split; assumption.
      - apply String.eqb_eq, E. }
    congruence.
  - intros v Hv. apply filter_In in Hv as [Hv _]. exact (Hck v Hv).
Qed.

Lemma posts_update_ok (db db' : Db) (where_ : posts_row -> bool) (c : string) (u : option string) :
  votes_ok db -> posts_update db where_ c u = inl db' -> votes_ok db'.
Proof.
  intros [Hpk Hvu Hfk Hck]. unfold posts_update.
  destruct (existsb where_ (posts db) && negb (content_check c)); [discriminate|].
  intros H. injection H as <-. constructor; cbn [votes posts]; try assumption.
  intros v Hv. destruct (Hfk v Hv) as (p & Hp & E).
  eexists. split; [apply in_map, Hp|]. cbn beta. destruct (where_ p); exact E.
Qed.

Lemma apply_ok (db db' : Db) (rq : Request) :
  votes_ok db -> apply db rq = inl db' -> votes_ok db'.
Proof.
  intros Hok. destruct rq as [row|row|id c u|id author|row]; cbn [apply has_policy].
  - unfold users_upsert. cbn [has_policy]. destruct Hok as [Hpk Hvu Hfk Hck].
    destruct (existsb _ (users db)); [discriminate|].
    destruct (existsb _ (users db)); [discriminate|].
    intros H. injection H as <-. constructor; assumption.
  - unfold posts_insert. destruct Hok as [Hpk Hvu Hfk Hck].
    destruct (negb _); [discriminate|]. destruct (existsb _ _); [discriminate|].
    intros H. injection H as <-. constructor; cbn [votes posts]; try assumption.
    intros v Hv. destruct (Hfk v Hv) as (p & Hp & E). exists p.
    split; [apply in_or_app; left; exact Hp|exact E].
  - intros H. injection H as <-. exact Hok.
  - intros H. injection H as <-. exact Hok.
  - apply votes_insert_ok, Hok.
Qed.

Lemma step_ok (db : Db) (rq : Request) : votes_ok db -> votes_ok (step db rq).
Proof.
  intros Hok. unfold step. destruct (apply db rq) as [db'|e] eqn:E; [|exact Hok].
  exact (apply_ok _ _ _ Hok E).
Qed.

Lemma empty_ok : votes_ok empty.
Proof. constructor; cbn; try constructor; intros v []. Qed.

Lemma run_ok (rqs : list Request) (db : Db) : votes_ok db -> votes_ok (run db rqs).
Proof.
  revert db. induction rqs as [|rq rqs IH]; intros db Hok; [exact Hok|].
  apply IH, step_ok, Hok.
Qed.

Lemma NoDup_map_eq {A B} (f : A -> B) (l : list A) (a b : A) :
  NoDup (map f l) -> In a l -> In b l -> f a = f b -> a = b.
Proof.
  induction l as [|x l IH]; [intros _ []|].
  cbn [map]. intros Hnd Ha Hb E. apply NoDup_cons_iff in Hnd as [Hnotin Hnd].
  destruct Ha as [->|Ha], Hb as [->|Hb].
  - reflexivity.
  - exfalso. apply Hnotin. rewrite E. apply in_map, Hb.
  - exfalso. apply Hnotin. rewrite <- E. apply in_map, Ha.
  - exact (IH Hnd Ha Hb E).
Qed.

(** Two votes of one voter on one post are the same row. *)
Lemma voter_unique_rows (db : Db) (a b : votes_row) :
  votes_ok db -> In a (votes db) -> In b (votes db) ->
  post_id a = post_id b -> user_name a = user_name b -> a = b.
Proof.
  intros Hok Ha Hb Ep Eu.
  apply (NoDup_map_eq (fun v => (post_id v, user_name v)) _ _ _ (voter_unique _ Hok) Ha Hb).
  cbn beta. congruence.
Qed.

(** A second vote of the same voter on the same post is refused with
    the unique-violation error. *)
Lemma votes_insert_duplicate (db : Db) (row old : votes_row) :
  In old (votes db) -> post_id old = post_id row -> user_name old = user_name row ->
  vote_type_check row = true ->
  votes_insert db row = inr unique_violation.
Proof.
  intros Hin Ep Eu Ec. unfold votes_insert. rewrite Ec. cbn [negb].
  destruct (existsb (fun r => v_id r =? v_id row) (votes db)); [reflexivity|].
  assert (E : existsb (same_voter row) (votes db) = true).
  { apply existsb_exists. exists old. split; [exact Hin|].
    apply same_voter_true; congruence. }
  rewrite E. reflexivity.
Qed.


(** Every vote row found after a request was there before, as it is, or
    is the row that request inserted under a fresh id. *)
Lemma step_votes (db : Db) (rq : Request) (v : votes_row) :
  In v (votes (step db rq)) ->
  In v (votes db) \/
  (rq = InsertVote v /\ forall r, In r (votes db) -> v_id r <> v_id v).
Proof.
  unfold step. destruct (apply db rq) as [db'|e] eqn:E; [|auto].
  destruct rq as [row|row|id c u|id author|row]; cbn [apply has_policy] in E.
  - unfold users_upsert in E. cbn [has_policy] in E.
    destruct (existsb _ (users db)); [discriminate|].
    destruct (existsb _ (users db)); [discriminate|]. injection E as <-. auto.
  - unfold posts_insert in E. destruct (negb _); [discriminate|].
    destruct (existsb _ _); [discriminate|]. injection E as <-. auto.
  - injection E as <-. auto.
  - injection E as <-. auto.
  - unfold votes_insert in E. destruct (negb _); [discriminate|].
    destruct (existsb (fun r => v_id r =? v_id row) (votes db)) eqn:Epk; [discriminate|].
    destruct (existsb (same_voter row) (votes db)); [discriminate|].
    destruct (negb _); [discriminate|]. injection E as <-. cbn [votes]. intros Hv.
    apply in_app_or in Hv as [Hv|[<-|[]]]; [auto|]. right. split; [reflexivity|].
    intros r Hr Eid. pose proof (existsb_false_forall _ _ Epk r Hr) as F. cbn in F.
    rewrite Eid, String.eqb_refl in F. discriminate.
Qed.

(** C7: when rows of [posts] are deleted the votes that reference them
    are deleted with them, so a query for the votes of a deleted post
    id comes back empty, while the votes of posts that stay are kept;
    no request changes a vote row that exists: a row is inserted once
    and from then on is either present unchanged or gone. *)
Theorem post_delete_cascades :
  (forall db where_ p,
     In p (posts db) -> where_ p = true ->
     votes_select_by_post (posts_delete db where_) (p_id p) = []) /\
  (forall db where_ id,
     votes_ok db ->
     (forall q, In q (posts (posts_delete db where_)) -> p_id q <> id) ->
     votes_select_by_post (posts_delete db where_) id = []) /\
  (forall db where_ v,
     In v (votes db) ->
     (forall q, In q (posts db) -> where_ q = true -> p_id q <> post_id v) ->
     In v (votes (posts_delete db where_))) /\
  (forall db rq v,
     In v (votes (step db rq)) -> In v (votes db) \/ rq = InsertVote v) /\
  (forall db rq v v',
     votes_ok db -> In v (votes db) -> In v' (votes (step db rq)) ->
     v_id v' = v_id v -> v' = v).
Proof.
  assert (Hcascade : forall db where_ p,
             In p (posts db) -> where_ p = true ->
             votes_select_by_post (posts_delete db where_) (p_id p) = []).
  { intros db where_ p Hp Hw. unfold votes_select_by_post, posts_delete. cbn [votes].
    destruct (filter _ (filter _ (votes db))) as [|v rest] eqn:F; [reflexivity|].
    exfalso. assert (Hv : In v (v :: rest)) by (left; reflexivity). rewrite <- F in Hv.
    apply filter_In in Hv as [Hv Eid]. apply filter_In in Hv as [_ Hkeep].
    apply negb_true_iff in Hkeep.
    assert (T : existsb (fun q => p_id q =? post_id v) (filter where_ (posts db)) = true).
    { apply existsb_exists. exists p. split; [apply filter_In; auto|].
      rewrite String.eqb_sym. exact Eid. }
    congruence. }
  split; [exact Hcascade|].
  - split.
    + intros db where_ id Hok Hgone. unfold votes_select_by_post.
      destruct (filter _ (votes (posts_delete db where_))) as [|v rest] eqn:F; [reflexivity|].
      exfalso. assert (Hv : In v (v :: rest)) by (left; reflexivity). rewrite <- F in Hv.
      apply filter_In in Hv as [Hv Eid]. apply String.eqb_eq in Eid.
      destruct (post_exists _ (posts_delete_ok db where_ Hok) v Hv) as (q & Hq & E).
      apply (Hgone q Hq). congruence.
    + split.
      * intros db where_ v Hv Hother. cbn [posts_delete votes]. apply filter_In.
        split; [exact Hv|]. apply negb_true_iff.
        destruct (existsb _ _) eqn:X; [|reflexivity]. exfalso.
        apply existsb_exists in X as (q & Hq & E). apply filter_In in Hq as [Hq Hw].
        apply String.eqb_eq in E. exact (Hother q Hq Hw E).
      * split.
        -- intros db rq v Hv. destruct (step_votes db rq v Hv) as [H|[H _]]; auto.
        -- intros db rq v v' Hok Hv Hv' Eid.
           destruct (step_votes db rq v' Hv') as [H|[_ Hfresh]].
           ++ exact (NoDup_map_eq v_id _ _ _ (pkey_unique _ Hok) H Hv Eid).
           ++ exfalso. exact (Hfresh v Hv (eq_sym Eid)).
Qed.

End StorageProofs.

(** A post with two votes next to a post with one: after the first is
    deleted its votes are gone. *)
Lemma post_delete_cascades_witness :
  let p1 := Storage.mk_post "p1" "ann" "sky is blue" None 1 in
  let p2 := Storage.mk_post "p2" "bob" "grass is red" None 2 in
  let db := {| Storage.users := [];
               Storage.posts := [p1; p2];
               Storage.votes := [Storage.mk_vote "v1" "p1" "bob" "true" 3;
                                 Storage.mk_vote "v2" "p2" "ann" "fake" 4;
                                 Storage.mk_vote "v3" "p1" "cat" "fake" 5] |} in
  let where_ := fun p => (Storage.p_id p =? "p1")%string in
  Storage.votes_select_by_post (Storage.posts_delete db where_) "p1" = [] /\
  Storage.votes_select_by_post (Storage.posts_delete db where_) "p2"
    = [Storage.mk_vote "v2" "p2" "ann" "fake" 4].
Proof.
  cbv zeta. split; [|reflexivity].
  refine (proj1 post_delete_cascades _ (fun p => (Storage.p_id p =? "p1")%string)
            (Storage.mk_post "p1" "ann" "sky is blue" None 1) _ eq_refl).
  left. reflexivity.
Defined.

(** ** Voting *)

Section VotingProofs.
Import Vote PostComponent.

Variables id currentUserName : string.

Lemma guard_true (s : State) :
  userVote s <> None \/ optimisticVote s <> None \/ isVoting s = true ->
  handleVote_returns_early s = true.
Proof.
  unfold handleVote_returns_early.
  intros [H|[H|H]].
  - destruct (userVote s); [|contradiction]. apply orb_true_iff. left. apply orb_true_r.
  - destruct (optimisticVote s); [|contradiction]. apply orb_true_r.
  - rewrite H. reflexivity.
Qed.

Lemma guard_false (s : State) :
  handleVote_returns_early s = false ->
  userVote s = None /\ optimisticVote s = None /\ isVoting s = false.
Proof.
  unfold handleVote_returns_early.
  destruct (isVoting s), (userVote s), (optimisticVote s); cbn; intros H;
    try discriminate; auto.
Qed.

(** With nothing in the way the call marks the vote as pending and
    issues one insert for this post and user. *)
Lemma handleVote_begin_free (s : State) (voteType : VoteType) :
  handleVote_returns_early s = false ->
  handleVote_begin id currentUserName s voteType =
  (setIsVoting true (setOptimisticVote (Some voteType) s),
   [SupabaseInsert id currentUserName voteType]).
Proof. unfold handleVote_begin. intros ->. reflexivity. Qed.

(** C3: with a confirmed vote, a pending optimistic vote or a request
    in flight, [handleVote] returns at once: the state is untouched and
    nothing is issued, neither by one call nor by any run of calls, and
    no row reaches the table. *)
Theorem handleVote_blocked (s : State) :
  userVote s <> None \/ optimisticVote s <> None \/ isVoting s = true ->
  (forall voteType, handleVote_begin id currentUserName s voteType = (s, [])) /\
  (forall voteType outcome, handleVote id currentUserName s voteType outcome = (s, [])) /\
  (forall calls, handleVote_calls id currentUserName s calls = (s, [])) /\
  (forall db fresh_id now voteType,
     handleVote_on id currentUserName db fresh_id now s voteType = (s, [], db)).
Proof.
  intros Hb. pose proof (guard_true s Hb) as G.
  assert (H1 : forall voteType outcome,
             handleVote id currentUserName s voteType outcome = (s, [])).
  { intros. unfold handleVote. rewrite G. reflexivity. }
  split; [intros; unfold handleVote_begin; rewrite G; reflexivity|].
  split; [exact H1|]. split.
  - induction calls as [|[voteType outcome] rest IH]; [reflexivity|].
    cbn [handleVote_calls]. rewrite H1, IH. reflexivity.
  - intros. unfold handleVote_on. rewrite G. reflexivity.
Qed.

Lemma settle_unique_violation (s : State) :
  handleVote_settle s (Failed (Some "23505")) =
  (setIsVoting false (setOptimisticVote None s), [ConsoleError "Error voting:"]).
Proof. reflexivity. Qed.

Lemma settle_other_failure (s : State) (outcome : InsertOutcome) :
  outcome <> Inserted -> outcome <> Failed (Some "23505") ->
  optimisticVote (fst (handleVote_settle s outcome)) = None /\
  isVoting (fst (handleVote_settle s outcome)) = false /\
  existsb is_alert (snd (handleVote_settle s outcome)) = true.
Proof.
  intros Hi Hu. destruct outcome as [|[c|]|e]; [contradiction| | |]; cbn.
  - destruct (String.eqb_spec c "23505") as [->|]; [contradiction|]. auto.
  - auto.
  - auto.
Qed.

End VotingProofs.

(** A user whose vote is confirmed clicks three times. *)
Lemma handleVote_blocked_witness :
  let s := {| PostComponent.votes := [Vote.mk "v1" "p" "ann" Vote.vote_true];
              PostComponent.userVote := Some Vote.vote_true;
              PostComponent.isVoting := false;
              PostComponent.optimisticVote := None |} in
  PostComponent.handleVote_calls "p" "ann" s
    [(Vote.vote_fake, PostComponent.Inserted);
     (Vote.vote_true, PostComponent.Failed None);
     (Vote.vote_fake, PostComponent.Rejected "offline")] = (s, []).
Proof.
  cbv zeta.
  refine (proj1 (proj2 (proj2 (handleVote_blocked "p" "ann" _ _))) _).
  left. discriminate.
Defined.

(** ** Duplicate votes *)

Lemma vote_row_checked (id currentUserName fresh_id : string) (now : Z) (t : Vote.VoteType) :
  Storage.vote_type_check (PostComponent.vote_row id currentUserName fresh_id now t) = true.
Proof. destruct t; reflexivity. Qed.

Lemma handleVote_on_duplicate (id currentUserName fresh_id : string) (now : Z)
    (db : Storage.Db) (s : PostComponent.State) (t : Vote.VoteType) (old : Storage.votes_row) :
  PostComponent.handleVote_returns_early s = false ->
  In old (Storage.votes db) ->
  Storage.post_id old = id -> Storage.user_name old = currentUserName ->
  PostComponent.handleVote_on id currentUserName db fresh_id now s t =
  (PostComponent.setIsVoting false
     (PostComponent.setOptimisticVote None
        (PostComponent.setIsVoting true
           (PostComponent.setOptimisticVote (Some t) s))),
   [PostComponent.SupabaseInsert id currentUserName t;
    PostComponent.ConsoleError "Error voting:"],
   db).
Proof.
  intros G Hin Ep Eu. unfold PostComponent.handleVote_on. rewrite G.
  rewrite (votes_insert_duplicate db
             (PostComponent.vote_row id currentUserName fresh_id now t) old
             Hin Ep Eu (vote_row_checked _ _ _ _ _)).
  unfold PostComponent.handleVote, PostComponent.handleVote_begin. rewrite G.
  reflexivity.
Qed.

(** C5: the tables never hold two votes of one voter on one post,
    because a second insert is refused with SQLSTATE 23505; when the
    insert of [handleVote] fails with that code the optimistic marker
    is cleared and no alert is raised, and on every other failure the
    marker is cleared and an alert is raised. *)
Theorem duplicate_vote_is_silent :
  (forall rqs a b,
     In a (Storage.votes (Storage.run Storage.empty rqs)) ->
     In b (Storage.votes (Storage.run Storage.empty rqs)) ->
     Storage.post_id a = Storage.post_id b ->
     Storage.user_name a = Storage.user_name b ->
     a = b) /\
  (forall db row old,
     In old (Storage.votes db) ->
     Storage.post_id old = Storage.post_id row ->
     Storage.user_name old = Storage.user_name row ->
     Storage.vote_type_check row = true ->
     exists e, Storage.votes_insert db row = inr e /\ Storage.sqlstate e = "23505") /\
  (forall s,
     let r := PostComponent.handleVote_settle s (PostComponent.Failed (Some "23505")) in
     PostComponent.optimisticVote (fst r) = None /\
     existsb PostComponent.is_alert (snd r) = false) /\
  (forall s outcome,
     outcome <> PostComponent.Inserted ->
     outcome <> PostComponent.Failed (Some "23505") ->
     let r := PostComponent.handleVote_settle s outcome in
     PostComponent.optimisticVote (fst r) = None /\
     existsb PostComponent.is_alert (snd r) = true) /\
  (forall id currentUserName fresh_id now db s t old,
     PostComponent.handleVote_returns_early s = false ->
     In old (Storage.votes db) ->
     Storage.post_id old = id -> Storage.user_name old = currentUserName ->
     let r := PostComponent.handleVote_on id currentUserName db fresh_id now s t in
     PostComponent.optimisticVote (fst (fst r)) = None /\
     PostComponent.isVoting (fst (fst r)) = false /\
     existsb PostComponent.is_alert (snd (fst r)) = false /\
     snd r = db).
Proof.
  split.
  - intros rqs a b Ha Hb Ep Eu.
    exact (voter_unique_rows _ a b (run_ok rqs _ empty_ok) Ha Hb Ep Eu).
  - split.
    + intros db row old Hin Ep Eu Ec. exists Storage.unique_violation.
      split; [exact (votes_insert_duplicate db row old Hin Ep Eu Ec)|reflexivity].
    + split; [intros s; split; reflexivity|]. split.
      * intros s outcome Hi Hu r. subst r.
        destruct (settle_other_failure s outcome Hi Hu) as (Ho & _ & Ha). auto.
      * intros id cur fresh_id now db s t old G Hin Ep Eu r. subst r.
        rewrite (handleVote_on_duplicate id cur fresh_id now db s t old G Hin Ep Eu).
        repeat split.
Qed.

(** A component that has not yet loaded the votes lets its user vote
    again: the table refuses the row and nothing is shown. *)
Lemma duplicate_vote_is_silent_witness :
  let db := {| Storage.users := [];
               Storage.posts := [Storage.mk_post "p1" "bob" "sky is blue" None 1];
               Storage.votes := [Storage.mk_vote "v1" "p1" "ann" "true" 2] |} in
  let r := PostComponent.handleVote_on "p1" "ann" db "v2" 3
             PostComponent.initial Vote.vote_fake in
  PostComponent.optimisticVote (fst (fst r)) = None /\
  existsb PostComponent.is_alert (snd (fst r)) = false /\
  snd r = db.
Proof.
  cbv zeta.
  destruct (proj2 (proj2 (proj2 (proj2 duplicate_vote_is_silent)))
              "p1" "ann" "v2" 3%Z
              {| Storage.users := [];
                 Storage.posts := [Storage.mk_post "p1" "bob" "sky is blue" None 1];
                 Storage.votes := [Storage.mk_vote "v1" "p1" "ann" "true" 2] |}
              PostComponent.initial Vote.vote_fake
              (Storage.mk_vote "v1" "p1" "ann" "true" 2)
              eq_refl (or_introl eq_refl) eq_refl eq_refl) as (H1 & _ & H2 & H3).
  repeat split; assumption.
Defined.

(** ** The feed *)

Section FeedProofs.
Import FeedComponent.
Local Open Scope nat_scope.
Local Open Scope string_scope.

Lemma filter_absent (old_id : string) (l : list PostData) :
  ~ In old_id (map id l) ->
  filter (fun post => negb (id post =? old_id)) l = l.
Proof.
  induction l as [|p l IH]; [reflexivity|]. cbn [map filter]. intros Hn.
  destruct (String.eqb_spec (id p) old_id) as [E|_].
  - exfalso. apply Hn. left. exact E.
  - cbn [negb]. f_equal. apply IH. intros H. apply Hn. right. exact H.
Qed.

Lemma map_absent (new : PostData) (l : list PostData) :
  ~ In (id new) (map id l) ->
  map (fun post => if id post =? id new then new else post) l = l.
Proof.
  induction l as [|p l IH]; [reflexivity|]. cbn [map]. intros Hn.
  destruct (String.eqb_spec (id p) (id new)) as [E|_].
  - exfalso. apply Hn. left. exact E.
  - f_equal. apply IH. intros H. apply Hn. right. exact H.
Qed.

(** C6: an INSERT puts the new post in front; a DELETE drops the posts
    with the old id and nothing else, the post at its place when the id
    occurs once; an UPDATE puts the new row at the place of the post
    with its id; the other posts stay where they were. *)
Theorem feed_reconciliation (posts : list PostData) :
  (forall new, on_change posts (INSERT new) = new :: posts) /\
  (forall old_id,
     (forall p, In p (on_change posts (DELETE old_id)) <-> In p posts /\ id p <> old_id) /\
     (forall before p after,
        posts = (before ++ p :: after)%list -> id p = old_id ->
        ~ In old_id (map id before) -> ~ In old_id (map id after) ->
        on_change posts (DELETE old_id) = (before ++ after)%list) /\
     (~ In old_id (map id posts) -> on_change posts (DELETE old_id) = posts)) /\
  (forall new,
     List.length (on_change posts (UPDATE new)) = List.length posts /\
     map id (on_change posts (UPDATE new)) = map id posts /\
     (forall i p, nth_error posts i = Some p ->
        nth_error (on_change posts (UPDATE new)) i
        = Some (if id p =? id new then new else p)) /\
     (forall before p after,
        posts = (before ++ p :: after)%list -> id p = id new ->
        ~ In (id new) (map id before) -> ~ In (id new) (map id after) ->
        on_change posts (UPDATE new) = (before ++ new :: after)%list)).
Proof.
  split; [reflexivity|]. split.
  - intros old_id. cbn [on_change]. split.
    + intros p. rewrite filter_In, negb_true_iff, String.eqb_neq. reflexivity.
    + split.
      * intros before p after -> Ep Hb Ha. rewrite filter_app. cbn [filter].
        rewrite Ep, String.eqb_refl. cbn [negb].
        rewrite (filter_absent _ _ Hb), (filter_absent _ _ Ha). reflexivity.
      * apply filter_absent.
  - intros new. cbn [on_change]. split; [apply length_map|]. split.
    + rewrite map_map. apply map_ext. intros p.
      destruct (String.eqb_spec (id p) (id new)) as [E|_]; congruence.
    + split.
      * intros i p Hi. rewrite nth_error_map, Hi. reflexivity.
      * intros before p after -> Ep Hb Ha. rewrite map_app. cbn [map].
        rewrite Ep, String.eqb_refl.
        rewrite (map_absent _ _ Hb), (map_absent _ _ Ha). reflexivity.
Qed.

End FeedProofs.

(** Three posts: an update of the middle one, then its deletion. *)
Lemma feed_reconciliation_witness :
  let a := FeedComponent.mk "a" "ann" "one" None "t3" in
  let b := FeedComponent.mk "b" "bob" "two" None "t2" in
  let c := FeedComponent.mk "c" "cat" "three" None "t1" in
  let b' := FeedComponent.mk "b" "bob" "two, edited" None "t2" in
  FeedComponent.on_change [a; b; c] (FeedComponent.UPDATE b') = [a; b'; c] /\
  FeedComponent.on_change [a; b; c] (FeedComponent.DELETE "b") = [a; c].
Proof.
  cbv zeta. split.
  - refine (proj2 (proj2 (proj2 (proj2 (proj2 (feed_reconciliation _))
                                   (FeedComponent.mk "b" "bob" "two, edited" None "t2"))))
              [FeedComponent.mk "a" "ann" "one" None "t3"]
              (FeedComponent.mk "b" "bob" "two" None "t2")
              [FeedComponent.mk "c" "cat" "three" None "t1"] eq_refl eq_refl _ _);
      cbn; intros [H|[]]; discriminate.
  - refine (proj1 (proj2 (proj1 (proj2 (feed_reconciliation _)) "b"))
              [FeedComponent.mk "a" "ann" "one" None "t3"]
              (FeedComponent.mk "b" "bob" "two" None "t2")
              [FeedComponent.mk "c" "cat" "three" None "t1"] eq_refl eq_refl _ _);
      cbn; intros [H|[]]; discriminate.
Defined.

(* ------------------------------------------------------------------ *)
(** * Further properties of the analyzer *)

Section MatchProofs.
Import Js Analyzer.
Local Open Scope nat_scope.
Local Open Scope string_scope.

Lemma occurs_nil (c : ascii) : ~ occurs c "".
Proof. intros []. Qed.

Lemma occurs_cons (c x : ascii) (s : string) :
  occurs c (String x s) <-> x = c \/ occurs c s.
Proof. reflexivity. Qed.

Lemma occurs_app (c : ascii) (a b : string) :
  occurs c (a ++ b) <-> occurs c a \/ occurs c b.
Proof.
  unfold occurs. induction a as [|x a IH]; cbn.
  - tauto.
  - rewrite IH. tauto.
Qed.

Lemma append_assoc (a b c : string) : (a ++ b) ++ c = a ++ (b ++ c).
Proof. induction a as [|x a IH]; cbn; [reflexivity|]. rewrite IH. reflexivity. Qed.

Lemma append_nil_r (a : string) : a ++ "" = a.
Proof. induction a as [|x a IH]; cbn; [reflexivity|]. rewrite IH. reflexivity. Qed.

Lemma from_first_open_spec (s rest : string) :
  from_first_open s = Some rest <->
  exists pre, s = pre ++ String "{" rest /\ ~ occurs "{"%char pre.
Proof.
  revert rest. induction s as [|c s IH]; intros rest; cbn [from_first_open].
  - split; [discriminate|]. intros (pre & E & _). destruct pre; discriminate.
  - destruct (Ascii.eqb_spec c "{") as [->|Hc].
    + split.
      * intros H. injection H as <-. exists "". split; [reflexivity|intros []].
      * intros (pre & E & Hn). destruct pre as [|x pre]; cbn in E.
        -- injection E as <-. reflexivity.
        -- injection E as <- _. exfalso. apply Hn. left. reflexivity.
    + rewrite IH. split.
      * intros (pre & -> & Hn). exists (String c pre). split; [reflexivity|].
        intros [E|H]; [congruence|exact (Hn H)].
      * intros (pre & E & Hn). destruct pre as [|x pre]; cbn in E.
        -- injection E as E _. congruence.
        -- injection E as <- ->. exists pre. split; [reflexivity|].
           intros H. apply Hn. right. exact H.
Qed.

Lemma upto_last_close_none (s : string) :
  upto_last_close s = None <-> ~ occurs "}"%char s.
Proof.
  induction s as [|c s IH]; cbn [upto_last_close].
  - split; [intros _ []|reflexivity].
  - destruct (upto_last_close s) as [m|].
    + split; [discriminate|]. intros Hn. exfalso.
      assert (H : ~ occurs "}"%char s) by (intros H; apply Hn; right; exact H).
      apply IH in H. discriminate.
    + destruct (Ascii.eqb_spec c "}") as [->|Hc].
      * split; [discriminate|]. intros Hn. exfalso. apply Hn. left. reflexivity.
      * split; [|reflexivity]. intros _ [E|H]; [congruence|].
        revert H. apply IH. reflexivity.
Qed.

Lemma upto_last_close_spec (s m : string) :
  upto_last_close s = Some m <->
  exists body post, s = body ++ String "}" post /\ m = body ++ "}" /\ ~ occurs "}"%char post.
Proof.
  revert m. induction s as [|c s IH]; intros m; cbn [upto_last_close].
  - split; [discriminate|]. intros (body & post & E & _). destruct body; discriminate.
  - destruct (upto_last_close s) as [m'|] eqn:U.
    + destruct (proj1 (IH m') eq_refl) as (body & post & -> & -> & Hn).
      split.
      * intros H. injection H as <-. exists (String c body), post. auto.
      * intros (body' & post' & E & -> & Hn'). f_equal.
        destruct body' as [|x body']; cbn in E.
        -- injection E as -> E. exfalso. apply Hn'. rewrite <- E.
           apply occurs_app. right. left. reflexivity.
        -- injection E as <- E. cbn. f_equal.
           assert (S : Some (body ++ "}") = Some (body' ++ "}")).
           { apply IH. exists body', post'. auto. }
           injection S as S. exact S.
    + apply upto_last_close_none in U.
      destruct (Ascii.eqb_spec c "}") as [->|Hc].
      * split.
        -- intros H. injection H as <-. exists "", s. auto.
        -- intros (body & post & E & -> & Hn). destruct body as [|x body]; cbn in E.
           ++ reflexivity.
           ++ injection E as <- ->. exfalso. apply U, occurs_app. right. left. reflexivity.
      * split; [discriminate|]. intros (body & post & E & _ & _). exfalso.
        destruct body as [|x body]; cbn in E.
        -- injection E as E _. congruence.
        -- injection E as _ ->. apply U, occurs_app. right. left. reflexivity.
Qed.

(** X1: the JSON span cut out of a Gemini text starts at the first
    opening brace and ends at the last closing brace after it. *)
Theorem match_braces_span (text m : string) :
  match_braces text = Some m <->
  exists pre body post,
    text = pre ++ "{" ++ body ++ "}" ++ post /\
    m = "{" ++ body ++ "}" /\
    ~ occurs "{"%char pre /\ ~ occurs "}"%char post.
Proof.
  unfold match_braces. split.
  - destruct (from_first_open text) as [rest|] eqn:F; [|discriminate].
    destruct (upto_last_close rest) as [m'|] eqn:U; [|discriminate].
    intros H. injection H as <-.
    apply from_first_open_spec in F as (pre & -> & Hpre).
    apply upto_last_close_spec in U as (body & post & -> & -> & Hpost).
    exists pre, body, post. auto.
  - intros (pre & body & post & -> & -> & Hpre & Hpost).
    assert (F : from_first_open (pre ++ "{" ++ body ++ "}" ++ post)
                = Some (body ++ "}" ++ post)).
    { apply from_first_open_spec. exists pre. auto. }
    rewrite F.
    assert (U : upto_last_close (body ++ "}" ++ post) = Some (body ++ "}")).
    { apply upto_last_close_spec. exists body, post. auto. }
    rewrite U. reflexivity.
Qed.

(** X2: no span is found exactly when the text has no opening brace
    with a closing brace somewhere after it; the analyzer then falls
    back to its placeholder. *)
Theorem match_braces_none (text : string) :
  match_braces text = None <->
  ~ exists a b c, text = a ++ "{" ++ b ++ "}" ++ c.
Proof.
  unfold match_braces. split.
  - intros H (a & b & c & ->).
    destruct (from_first_open (a ++ "{" ++ b ++ "}" ++ c)) as [rest|] eqn:F.
    + pose proof F as F'.
      apply from_first_open_spec in F' as (pre & E & Hpre).
      destruct (upto_last_close rest) as [m|] eqn:U; [discriminate|].
      apply upto_last_close_none in U. apply U.
      (* the closing brace lies after the first opening brace *)
      clear H F. revert a E. induction pre as [|x pre IH]; intros a E.
      * destruct a as [|y a]; cbn in E.
        -- injection E as <-. apply occurs_app. right. left. reflexivity.
        -- injection E as _ <-. rewrite !occurs_app. right. right.
           apply occurs_app. right. left. reflexivity.
      * destruct a as [|y a]; cbn in E.
        -- injection E as E _. exfalso. apply Hpre. left. exact (eq_sym E).
        -- injection E as _ E. apply (IH (fun H => Hpre (or_intror H)) a E).
    + assert (N : forall rest, from_first_open (a ++ "{" ++ b ++ "}" ++ c) <> Some rest)
        by congruence.
      clear H F. induction a as [|y a IH]; cbn in N.
      * apply (N _ eq_refl).
      * destruct (Ascii.eqb y "{"); [apply (N _ eq_refl)|exact (IH N)].
  - intros Hn. destruct (from_first_open text) as [rest|] eqn:F; [|reflexivity].
    destruct (upto_last_close rest) as [m|] eqn:U; [|reflexivity].
    exfalso. apply Hn.
    apply from_first_open_spec in F as (pre & -> & _).
    apply upto_last_close_spec in U as (body & post & -> & _ & _).
    exists pre, body, post. reflexivity.
Qed.

End MatchProofs.

Section SourcesProofs.
Import Js Analyzer.
Local Open Scope nat_scope.
Local Open Scope string_scope.

Lemma existsb_eqb_In (x : string) (l : list string) :
  existsb (String.eqb x) l = true <-> In x l.
Proof.
  rewrite existsb_exists. split.
  - intros (y & Hy & E). apply String.eqb_eq in E. congruence.
  - intros H. exists x. split; [exact H|apply String.eqb_refl].
Qed.

Lemma Set_add_In (s : list string) (x y : string) :
  In y (Set_add s x) <-> In y s \/ y = x.
Proof.
  unfold Set_add. destruct (existsb (String.eqb x) s) eqn:E.
  - apply existsb_eqb_In in E. split; [auto|]. intros [H| ->]; assumption.
  - rewrite in_app_iff. cbn. intuition congruence.
Qed.

Lemma Set_add_NoDup (s : list string) (x : string) : NoDup s -> NoDup (Set_add s x).
Proof.
  intros Hs. unfold Set_add. destruct (existsb (String.eqb x) s) eqn:E; [exact Hs|].
  apply NoDup_app; [exact Hs|repeat constructor; intros []|].
  intros a Ha [<-|[]]. apply existsb_eqb_In in Ha. congruence.
Qed.

Lemma fold_Set_add_In (xs s : list string) (y : string) :
  In y (fold_left Set_add xs s) <-> In y s \/ In y xs.
Proof.
  revert s. induction xs as [|x xs IH]; intros s; cbn [fold_left].
  - cbn. tauto.
  - rewrite IH, Set_add_In. cbn. intuition congruence.
Qed.

Lemma fold_Set_add_NoDup (xs s : list string) :
  NoDup s -> NoDup (fold_left Set_add xs s).
Proof.
  revert s. induction xs as [|x xs IH]; intros s Hs; [exact Hs|].
  apply IH, Set_add_NoDup, Hs.
Qed.

(** Elements that are new go to the end, in the order they come. *)
Lemma fold_Set_add_fresh (xs s : list string) :
  NoDup (s ++ xs) -> fold_left Set_add xs s = (s ++ xs)%list.
Proof.
  revert s. induction xs as [|x xs IH]; intros s Hnd; cbn [fold_left].
  - rewrite app_nil_r. reflexivity.
  - assert (Hx : existsb (String.eqb x) s = false).
    { destruct (existsb (String.eqb x) s) eqn:E; [|reflexivity].
      apply existsb_eqb_In in E. apply NoDup_remove_2 in Hnd.
      exfalso. apply Hnd, in_or_app. left. exact E. }
    unfold Set_add at 2. rewrite Hx.
    replace (s ++ x :: xs)%list with ((s ++ [x]) ++ xs)%list in *
      by (rewrite <- app_assoc; reflexivity).
    apply IH, Hnd.
Qed.

(** Elements already present change nothing. *)
Lemma fold_Set_add_known (xs s : list string) :
  (forall x, In x xs -> In x s) -> fold_left Set_add xs s = s.
Proof.
  revert s. induction xs as [|x xs IH]; intros s Hin; [reflexivity|].
  cbn [fold_left]. unfold Set_add at 2.
  rewrite (proj2 (existsb_eqb_In x s) (Hin x (or_introl eq_refl))).
  apply IH. intros y Hy. apply Hin. right. exact Hy.
Qed.

Lemma fold_left_app_Set (xs ys s : list string) :
  fold_left Set_add (xs ++ ys) s = fold_left Set_add ys (fold_left Set_add xs s).
Proof. apply fold_left_app. Qed.

(** X3: the combined sources hold every source of either provider
    once, OpenAI's first: a duplicate-free OpenAI list is kept as it is
    at the front, and Gemini sources already listed add nothing. *)
Theorem getAnalysis_sources (o g : AnalysisResult.t) :
  let c := getAnalysis o g in
  NoDup (CombinedAnalysis.sources c) /\
  (forall u, In u (CombinedAnalysis.sources c) <->
             In u (AnalysisResult.sources o) \/ In u (AnalysisResult.sources g)) /\
  (NoDup (AnalysisResult.sources o) ->
   exists rest, CombinedAnalysis.sources c = (AnalysisResult.sources o ++ rest)%list) /\
  (NoDup (AnalysisResult.sources o ++ AnalysisResult.sources g) ->
   CombinedAnalysis.sources c = (AnalysisResult.sources o ++ AnalysisResult.sources g)%list) /\
  (NoDup (AnalysisResult.sources o) ->
   (forall u, In u (AnalysisResult.sources g) -> In u (AnalysisResult.sources o)) ->
   CombinedAnalysis.sources c = AnalysisResult.sources o).
Proof.
  cbv zeta. unfold getAnalysis. cbn [CombinedAnalysis.sources]. unfold Set_of.
  split; [apply fold_Set_add_NoDup; constructor|].
  split.
  { intros u. rewrite fold_Set_add_In, in_app_iff. cbn. tauto. }
  split.
  { intros Ho. rewrite fold_left_app_Set.
    rewrite (fold_Set_add_fresh (AnalysisResult.sources o) []) by exact Ho. cbn [app].
    generalize (AnalysisResult.sources g) as ys. generalize (AnalysisResult.sources o) as s.
    intros s ys. revert s. induction ys as [|y ys IH]; intros s.
    - exists []. cbn. rewrite app_nil_r. reflexivity.
    - cbn [fold_left]. unfold Set_add at 2. destruct (existsb (String.eqb y) s).
      + apply IH.
      + destruct (IH (s ++ [y])%list) as [rest E]. exists (y :: rest).
        rewrite E, <- app_assoc. reflexivity. }
  split.
  { intros Hnd. apply (fold_Set_add_fresh _ []). exact Hnd. }
  intros Ho Hg. rewrite fold_left_app_Set.
  rewrite (fold_Set_add_fresh (AnalysisResult.sources o) []) by exact Ho. cbn [app].
  apply fold_Set_add_known, Hg.
Qed.

End SourcesProofs.

Lemma getAnalysis_sources_witness :
  CombinedAnalysis.sources
    (Analyzer.getAnalysis
       (AnalysisResult.mk "True" 80 [] ["https://a"; "https://b"])
       (AnalysisResult.mk "True" 90 [] ["https://b"; "https://a"]))
  = ["https://a"; "https://b"].
Proof.
  refine (proj2 (proj2 (proj2 (proj2
            (getAnalysis_sources
               (AnalysisResult.mk "True" 80 [] ["https://a"; "https://b"])
               (AnalysisResult.mk "True" 90 [] ["https://b"; "https://a"]))))) _ _).
  - repeat constructor; cbn; intuition discriminate.
  - cbn. intuition.
Defined.

Section ThresholdProofs.
Import Js Analyzer.
Local Open Scope Q_scope.






End ThresholdProofs.


Section DegradedProofs.
Import Js Analyzer.

Variable JSON_parse : string -> option JsValue.
Variable openai_configured genAI_configured : bool.
Variable openai_create : string -> OpenAIReply.
Variable gemini_generate : string -> GeminiReply.
Variable currentDate : string.

Lemma analyzeWithOpenAI_failing (claim webContext : string) :
  openai_fails JSON_parse openai_configured
    (openai_create (openai_prompt currentDate claim webContext)) ->
  exists line,
    analyzeWithOpenAI JSON_parse openai_configured openai_create currentDate claim webContext
    = Return (placeholder line).
Proof.
  intros Hf. unfold analyzeWithOpenAI. cbv zeta.
  destruct (sumbool_of_bool openai_configured) as [Hc|Hc]; rewrite Hc; cbn [negb].
  - rewrite (openai_fails_caught _ _ _ _ Hc Hf). eexists. reflexivity.
  - eexists. reflexivity.
Qed.

Lemma analyzeWithGemini_failing (claim webContext : string) :
  gemini_fails JSON_parse genAI_configured
    (gemini_generate (gemini_prompt currentDate claim webContext)) ->
  exists line,
    analyzeWithGemini JSON_parse genAI_configured gemini_generate currentDate claim webContext
    = Return (placeholder line).
Proof.
  intros Hf. unfold analyzeWithGemini. cbv zeta.
  destruct (sumbool_of_bool genAI_configured) as [Hc|Hc]; rewrite Hc; cbn [negb].
  - rewrite (gemini_fails_caught _ _ _ _ Hc Hf). eexists. reflexivity.
  - eexists. reflexivity.
Qed.

(** X5: when both provider calls fail, the two results read at their
    declared types combine to rate 50, verdict "Mixed", the two
    explanatory lines (OpenAI's first, each behind its provider label)
    and no sources. *)
Theorem getAnalysis_of_two_failures (claim webContext : string) :
  openai_fails JSON_parse openai_configured
    (openai_create (openai_prompt currentDate claim webContext)) ->
  gemini_fails JSON_parse genAI_configured
    (gemini_generate (gemini_prompt currentDate claim webContext)) ->
  exists ro rg o g line1 line2,
    analyzeWithOpenAI JSON_parse openai_configured openai_create currentDate claim webContext
      = Return ro /\
    analyzeWithGemini JSON_parse genAI_configured gemini_generate currentDate claim webContext
      = Return rg /\
    typed ro = Some o /\ typed rg = Some g /\
    CombinedAnalysis.true_rate (getAnalysis o g) = 50%Q /\
    CombinedAnalysis.verdict (getAnalysis o g) = "Mixed" /\
    CombinedAnalysis.reasoning (getAnalysis o g)
      = ["OpenAI: " ++ line1; "Gemini: " ++ line2] /\
    CombinedAnalysis.sources (getAnalysis o g) = [].
Proof.
  intros Ho Hg.
  destruct (analyzeWithOpenAI_failing claim webContext Ho) as [l1 H1].
  destruct (analyzeWithGemini_failing claim webContext Hg) as [l2 H2].
  exists (placeholder l1), (placeholder l2),
         (AnalysisResult.mk "Mixed" 50 [l1] []), (AnalysisResult.mk "Mixed" 50 [l2] []),
         l1, l2.
  repeat split; assumption.
Qed.

(** X6: a reply that parses to an object whose four fields are all
    truthy is returned field by field as it came: neither the verdict
    nor the range of the rate is checked. *)
Theorem analyzers_pass_through (claim webContext : string)
    (fields : list (string * JsValue)) (verdict true_rate reasoning sources : JsValue) :
  assoc "verdict" fields = Some verdict -> truthy verdict = true ->
  assoc "true_rate" fields = Some true_rate -> truthy true_rate = true ->
  assoc "reasoning" fields = Some reasoning -> truthy reasoning = true ->
  assoc "sources" fields = Some sources -> truthy sources = true ->
  (forall content rest,
     openai_configured = true ->
     openai_create (openai_prompt currentDate claim webContext) = Completion (content :: rest) ->
     JSON_parse (content_or_empty_object content) = Some (JObj fields) ->
     analyzeWithOpenAI JSON_parse openai_configured openai_create currentDate claim webContext
     = Return (mkRaw verdict true_rate reasoning sources)) /\
  (forall text jsonMatch,
     genAI_configured = true ->
     gemini_generate (gemini_prompt currentDate claim webContext) = ResponseText text ->
     match_braces text = Some jsonMatch ->
     JSON_parse jsonMatch = Some (JObj fields) ->
     analyzeWithGemini JSON_parse genAI_configured gemini_generate currentDate claim webContext
     = Return (mkRaw verdict true_rate reasoning sources)).
Proof.
  intros Hv Tv Ht Tt Hr Tr Hs Ts.
  assert (N : normalize (JObj fields) = Return (mkRaw verdict true_rate reasoning sources)).
  { unfold normalize. cbn [get_prop bind]. rewrite Hv, Ht, Hr, Hs.
    unfold js_or. rewrite Tv, Tt, Tr, Ts. reflexivity. }
  split.
  - intros content rest Hc Hreply Hparse. unfold analyzeWithOpenAI. cbv zeta.
    rewrite Hc, Hreply. cbn [negb openai_parsed]. unfold parse_or_throw.
    rewrite Hparse. cbn [bind]. rewrite N. reflexivity.
  - intros text jsonMatch Hc Hreply Hm Hparse. unfold analyzeWithGemini. cbv zeta.
    rewrite Hc, Hreply. cbn [negb gemini_parsed]. rewrite Hm. unfold parse_or_throw.
    rewrite Hparse. cbn [bind]. rewrite N. reflexivity.
Qed.

End DegradedProofs.

(** Neither key is set. *)
Lemma getAnalysis_of_two_failures_witness :
  exists o g,
    Analyzer.typed (Analyzer.placeholder "OpenAI API key not configured") = Some o /\
    Analyzer.typed (Analyzer.placeholder "Gemini API key not configured") = Some g /\
    CombinedAnalysis.true_rate (Analyzer.getAnalysis o g) = 50%Q /\
    CombinedAnalysis.verdict (Analyzer.getAnalysis o g) = "Mixed".
Proof.
  destruct (getAnalysis_of_two_failures (fun _ => None) false false
              (fun _ => Analyzer.Completion []) (fun _ => Analyzer.ResponseText "")
              "2025-01-01" "claim" "" (or_introl eq_refl) (or_introl eq_refl))
    as (ro & rg & o & g & l1 & l2 & H1 & H2 & To & Tg & Hrate & Hverdict & _).
  injection H1 as <-. injection H2 as <-.
  exists o, g. repeat split; assumption.
Defined.

(** A reply with a verdict outside the three literals and a rate of 150. *)
Lemma analyzers_pass_through_witness :
  Analyzer.analyzeWithOpenAI
    (fun _ => Some (Js.JObj [("verdict", Js.JStr "Probably");
                             ("true_rate", Js.JNum 150);
                             ("reasoning", Js.JArr [Js.JStr "because"]);
                             ("sources", Js.JArr [Js.JStr "https://a"])]))
    true (fun _ => Analyzer.Completion [Some "{...}"]) "2025-01-01" "claim" ""
  = Js.Return (Analyzer.mkRaw (Js.JStr "Probably") (Js.JNum 150)
                 (Js.JArr [Js.JStr "because"]) (Js.JArr [Js.JStr "https://a"])).
Proof.
  refine (proj1 (analyzers_pass_through _ true false _ (fun _ => Analyzer.GenerateRejects "x")
                   "2025-01-01" "claim" ""
                   [("verdict", Js.JStr "Probably");
                    ("true_rate", Js.JNum 150);
                    ("reasoning", Js.JArr [Js.JStr "because"]);
                    ("sources", Js.JArr [Js.JStr "https://a"])]
                   (Js.JStr "Probably") (Js.JNum 150)
                   (Js.JArr [Js.JStr "because"]) (Js.JArr [Js.JStr "https://a"])
                   eq_refl eq_refl eq_refl eq_refl eq_refl eq_refl eq_refl eq_refl)
            (Some "{...}") [] eq_refl eq_refl eq_refl).
Defined.

Section WebContextProofs.
Import Js Analyzer.
Local Open Scope nat_scope.
Local Open Scope string_scope.

Lemma length_append (a b : string) :
  String.length (a ++ b) = String.length a + String.length b.
Proof. induction a as [|c a IH]; cbn; congruence. Qed.

Lemma Forall_firstn_keeps {A} (P : A -> Prop) (n : nat) (l : list A) :
  Forall P l -> Forall P (firstn n l).
Proof.
  intros H. revert n. induction H as [|x l Hx _ IH]; intros [|n]; cbn; constructor; auto.
Qed.

Lemma split_space_nonempty (s : string) : split_space s <> [].
Proof.
  induction s as [|c s IH]; cbn [split_space]; [discriminate|].
  destruct (Ascii.eqb c " "); [discriminate|].
  destruct (split_space s); discriminate.
Qed.

Lemma join_space_cons_char (c : ascii) (w : string) (l : list string) :
  join_space (String c w :: l) = String c (join_space (w :: l)).
Proof. destruct l; reflexivity. Qed.

Lemma join_space_empty_head (w : string) (l : list string) :
  join_space ("" :: w :: l) = String " " (join_space (w :: l)).
Proof. reflexivity. Qed.

(** The first [k + 1] pieces, joined again, are the text up to a space
    or up to its end. *)
Lemma join_firstn_split (s : string) (k : nat) :
  exists rest,
    s = join_space (firstn (S k) (split_space s)) ++ rest /\
    (rest = "" \/ exists rest', rest = String " " rest').
Proof.
  revert k. induction s as [|c s IH]; intros k.
  - exists "". split; [|left; reflexivity].
    cbn [split_space firstn]. rewrite firstn_nil. reflexivity.
  - cbn [split_space]. destruct (Ascii.eqb_spec c " ") as [->|Hc].
    + destruct k as [|k].
      * exists (String " " s). split; [reflexivity|right; eexists; reflexivity].
      * destruct (IH k) as (rest & E & Hrest). exists rest. split; [|exact Hrest].
        change (firstn (S (S k)) ("" :: split_space s))
          with ("" :: firstn (S k) (split_space s)).
        destruct (firstn (S k) (split_space s)) as [|w l] eqn:F.
        -- exfalso. destruct (split_space s) eqn:Sp; [exact (split_space_nonempty s Sp)|].
           discriminate.
        -- rewrite join_space_empty_head. cbn [append]. f_equal. exact E.
    + destruct (split_space s) as [|w ws] eqn:Sp; [exfalso; exact (split_space_nonempty s Sp)|].
      destruct (IH k) as (rest & E & Hrest). exists rest. split; [|exact Hrest].
      change (firstn (S k) (String c w :: ws)) with (String c w :: firstn k ws).
      change (firstn (S k) (w :: ws)) with (w :: firstn k ws) in E.
      rewrite join_space_cons_char. cbn [append]. f_equal. exact E.
Qed.

Lemma join_split_space (s : string) : join_space (split_space s) = s.
Proof.
  destruct (join_firstn_split s (List.length (split_space s))) as (rest & E & Hrest).
  rewrite firstn_all2 in E by lia.
  (* the pieces joined have the length of the text, so nothing is left over *)
  assert (L : forall t, String.length (join_space (split_space t)) = String.length t).
  { clear. induction t as [|c t IH]; [reflexivity|]. cbn [split_space].
    destruct (Ascii.eqb_spec c " ") as [->|Hc].
    - destruct (split_space t) as [|w l] eqn:Sp; [exfalso; exact (split_space_nonempty t Sp)|].
      rewrite join_space_empty_head. cbn [String.length]. congruence.
    - destruct (split_space t) as [|w l] eqn:Sp; [exfalso; exact (split_space_nonempty t Sp)|].
      rewrite join_space_cons_char. cbn [String.length]. congruence. }
  assert (Hlen : String.length rest = 0).
  { pose proof (f_equal String.length E) as EL.
    rewrite length_append, L in EL. lia. }
  destruct rest; [|discriminate]. rewrite append_nil_r in E. exact (eq_sym E).
Qed.

Lemma split_space_no_space (s : string) :
  Forall (fun w => ~ occurs " "%char w) (split_space s).
Proof.
  induction s as [|c s IH]; cbn [split_space].
  - constructor; [intros []|constructor].
  - destruct (Ascii.eqb_spec c " ") as [->|Hc].
    + constructor; [intros []|exact IH].
    + destruct (split_space s) as [|w ws]; [constructor; [|constructor]|].
      * intros [E|[]]. congruence.
      * inversion IH as [|? ? Hw Hws]; subst. constructor; [|exact Hws].
        intros [E|H]; [congruence|exact (Hw H)].
Qed.

Lemma split_space_word (w : string) :
  ~ occurs " "%char w -> split_space w = [w].
Proof.
  induction w as [|c w IH]; intros Hn; [reflexivity|].
  cbn [split_space]. destruct (Ascii.eqb_spec c " ") as [->|Hc].
  - exfalso. apply Hn. left. reflexivity.
  - rewrite IH; [reflexivity|]. intros H. apply Hn. right. exact H.
Qed.

Lemma split_space_app (w rest : string) :
  ~ occurs " "%char w ->
  split_space (w ++ String " " rest) = w :: split_space rest.
Proof.
  induction w as [|c w IH]; intros Hn.
  - reflexivity.
  - cbn [append split_space]. destruct (Ascii.eqb_spec c " ") as [->|Hc].
    + exfalso. apply Hn. left. reflexivity.
    + rewrite IH; [reflexivity|]. intros H. apply Hn. right. exact H.
Qed.

Lemma split_join_words (words : list string) :
  words <> [] ->
  Forall (fun w => ~ occurs " "%char w) words ->
  split_space (join_space words) = words.
Proof.
  induction words as [|w l IH]; intros Hne Hall; [contradiction|].
  inversion Hall as [|? ? Hw Hl]; subst.
  destruct l as [|w' l'].
  - cbn [join_space]. apply split_space_word, Hw.
  - change (join_space (w :: w' :: l')) with (w ++ String " " (join_space (w' :: l'))).
    rewrite (split_space_app _ _ Hw). f_equal. apply IH; [discriminate|exact Hl].
Qed.

(** X7: splitting at spaces and joining with spaces are inverse to each
    other: the pieces of a text contain no space and join back to the
    text, and a non-empty list of space-free words is what its joined
    text splits into. *)
Theorem split_join_round_trip :
  (forall s, join_space (split_space s) = s /\
             Forall (fun w => ~ occurs " "%char w) (split_space s) /\
             split_space s <> []) /\
  (forall words, words <> [] ->
                 Forall (fun w => ~ occurs " "%char w) words ->
                 split_space (join_space words) = words).
Proof.
  split.
  - intros s. split; [apply join_split_space|].
    split; [apply split_space_no_space|apply split_space_nonempty].
  - exact split_join_words.
Qed.

(** X8: the search query is the claim cut at its fifth space, if it has
    one, followed by " fact check"; a claim of at most five pieces is
    used whole. *)
Theorem searchQuery_prefix (claim : string) :
  exists head rest,
    claim = head ++ rest /\
    searchQuery claim = head ++ " fact check" /\
    (rest = "" \/ exists rest', rest = String " " rest') /\
    List.length (split_space head) <= 5 /\
    (List.length (split_space claim) <= 5 -> head = claim).
Proof.
  destruct (join_firstn_split claim 4) as (rest & E & Hrest).
  exists (join_space (firstn 5 (split_space claim))), rest.
  split; [exact E|]. split; [reflexivity|]. split; [exact Hrest|]. split.
  - assert (Hne : firstn 5 (split_space claim) <> []).
    { pose proof (split_space_nonempty claim) as Hs.
      destruct (split_space claim); [contradiction|discriminate]. }
    rewrite (split_join_words _ Hne).
    + rewrite length_firstn. lia.
    + apply Forall_firstn_keeps, split_space_no_space.
  - intros Hlen. rewrite firstn_all2 by exact Hlen. apply join_split_space.
Qed.

(** X9: [getWebContext] always returns a text: the fixed fallback when
    the search fails, otherwise "Recent web context: " followed by a
    non-empty context, which is the abstract if there is one, else the
    topic texts joined by spaces if that is non-empty, else "No recent
    data found.". *)
Theorem getWebContext_cases (fetch_json : string -> option SearchData) (claim : string) :
  exists r,
    getWebContext fetch_json claim = Return r /\
    (fetch_json (searchQuery claim) = None ->
     r = "Web search unavailable; using model knowledge.") /\
    (forall data, fetch_json (searchQuery claim) = Some data ->
       exists context,
         r = "Recent web context: " ++ context /\ context <> "" /\
         (Abstract data <> "" -> context = Abstract data) /\
         (Abstract data = "" -> topics_text data <> "" -> context = topics_text data) /\
         (Abstract data = "" -> topics_text data = "" -> context = "No recent data found.")).
Proof.
  unfold getWebContext. destruct (fetch_json (searchQuery claim)) as [data|]; cbn.
  - eexists. split; [reflexivity|]. split; [discriminate|].
    intros d H. injection H as <-. eexists. split; [reflexivity|].
    unfold or_string.
    destruct (String.eqb_spec (Abstract data) "") as [Ea|Ea].
    + destruct (String.eqb_spec (topics_text data) "") as [Et|Et].
      * repeat split; try discriminate; try contradiction; auto.
      * repeat split; try contradiction; auto.
    + repeat split; try contradiction; auto.
  - eexists. split; [reflexivity|]. split; [reflexivity|discriminate].
Qed.

End WebContextProofs.

Lemma split_join_round_trip_witness :
  Analyzer.split_space (Analyzer.join_space ["is"; "the"; "sky"; "blue"])
  = ["is"; "the"; "sky"; "blue"].
Proof.
  refine (proj2 split_join_round_trip _ _ _); [discriminate|].
  repeat constructor; unfold Analyzer.occurs; cbn; intuition discriminate.
Defined.

Lemma searchQuery_prefix_witness :
  Analyzer.searchQuery "the sky is blue" = "the sky is blue fact check".
Proof.
  destruct (searchQuery_prefix "the sky is blue") as (head & rest & _ & Q & _ & _ & H).
  rewrite Q, (H ltac:(cbn; lia)). reflexivity.
Defined.

(* ------------------------------------------------------------------ *)
(** * Further properties of the Post component *)

Section VoteFlowProofs.
Import Vote PostComponent.
Local Open Scope nat_scope.
Local Open Scope string_scope.

Variables id currentUserName : string.

Lemma state_eta (s : State) :
  s = {| votes := votes s; userVote := userVote s;
         isVoting := isVoting s; optimisticVote := optimisticVote s |}.
Proof. destruct s; reflexivity. Qed.

Lemma handleVote_free (s : State) (t : VoteType) (outcome : InsertOutcome) :
  handleVote_returns_early s = false ->
  handleVote id currentUserName s t outcome =
  (fst (handleVote_settle (setIsVoting true (setOptimisticVote (Some t) s)) outcome),
   SupabaseInsert id currentUserName t ::
   snd (handleVote_settle (setIsVoting true (setOptimisticVote (Some t) s)) outcome)).
Proof.
  intros G. unfold handleVote, handleVote_begin. rewrite G.
  destruct (handleVote_settle _ outcome). reflexivity.
Qed.

Lemma handleVote_calls_blocked (s : State) (calls : list (VoteType * InsertOutcome)) :
  handleVote_returns_early s = true ->
  handleVote_calls id currentUserName s calls = (s, []).
Proof.
  intros G. induction calls as [|[t o] rest IH]; [reflexivity|].
  cbn [handleVote_calls]. unfold handleVote. rewrite G, IH. reflexivity.
Qed.

(** X10: a vote shows at once: on an unblocked state the click adds
    one to the bucket of the chosen type, and the confirmation by the
    realtime event leaves both tallies as they are, whether the event
    comes before or after the insert has settled. *)
Theorem vote_shows_at_once (s : State) (t : VoteType) :
  handleVote_returns_early s = false ->
  let s1 := fst (handleVote_begin id currentUserName s t) in
  trueVotes currentUserName s1 = trueVotes currentUserName s + one_if (Some t) vote_true /\
  fakeVotes currentUserName s1 = fakeVotes currentUserName s + one_if (Some t) vote_fake /\
  (forall vid pid,
     let confirmation := INSERT (Vote.mk vid pid currentUserName t) in
     let s2 := on_vote_change currentUserName
                 (fst (handleVote_settle s1 Inserted)) confirmation in
     trueVotes currentUserName s2 = trueVotes currentUserName s1 /\
     fakeVotes currentUserName s2 = fakeVotes currentUserName s1 /\
     userVote s2 = Some t /\ optimisticVote s2 = None /\ isVoting s2 = false /\
     fst (handleVote_settle (on_vote_change currentUserName s1 confirmation) Inserted) = s2).
Proof.
  intros G. destruct (guard_false s G) as (Hu & Ho & Hv).
  unfold handleVote_begin. rewrite G. cbn [fst].
  rewrite !trueVotes_spec, !fakeVotes_spec. cbn [setIsVoting setOptimisticVote votes
    optimisticVote userVote]. rewrite Hu, Ho.
  split; [destruct t; cbn; lia|]. split; [destruct t; cbn; lia|].
  intros vid pid. cbv zeta. cbn [handleVote_settle fst on_vote_change user_name].
  rewrite String.eqb_refl.
  rewrite !trueVotes_spec, !fakeVotes_spec.
  cbn [setIsVoting setOptimisticVote setUserVote setVotes votes optimisticVote userVote
       isVoting vote_type].
  rewrite !count_others_app. cbn [count_others user_name]. rewrite String.eqb_refl.
  repeat split; destruct t; cbn; lia.
Qed.

(** X11: a vote that fails, with whatever error or rejection, puts an
    unblocked state back exactly as it was. *)
Theorem failed_vote_restores_state (s : State) (t : VoteType) (outcome : InsertOutcome) :
  handleVote_returns_early s = false ->
  outcome <> Inserted ->
  fst (handleVote id currentUserName s t outcome) = s.
Proof.
  intros G Hne. destruct (guard_false s G) as (Hu & Ho & Hv).
  rewrite (handleVote_free s t outcome G). cbn [fst].
  rewrite (state_eta s) at 2. rewrite Ho, Hv.
  destruct outcome as [|code|e]; [contradiction| |]; reflexivity.
Qed.

(** X12: in a run of clicks whose inserts all succeed, at most one
    insert is issued: the first success blocks every later call. *)
Theorem successful_clicks_insert_once (s : State) (calls : list (VoteType * InsertOutcome)) :
  Forall (fun call => snd call = Inserted) calls ->
  List.length (filter is_insert (snd (handleVote_calls id currentUserName s calls))) <= 1.
Proof.
  intros Hall. revert s. induction Hall as [|[t o] rest Ho _ IH]; intros s; [cbn; lia|].
  cbn [snd] in Ho. subst o. cbn [handleVote_calls].
  destruct (handleVote_returns_early s) eqn:G.
  - unfold handleVote. rewrite G.
    specialize (IH s). destruct (handleVote_calls id currentUserName s rest). exact IH.
  - rewrite (handleVote_free s t Inserted G). cbn [handleVote_settle fst snd].
    rewrite handleVote_calls_blocked.
    + cbn. lia.
    + unfold handleVote_returns_early. cbn. apply orb_true_r.
Qed.

Lemma filter_id_fresh (vid : string) (l : list Vote.t) :
  ~ In vid (map Vote.id l) ->
  filter (fun vote => negb (Vote.id vote =? vid)) l = l.
Proof.
  induction l as [|x l IH]; [reflexivity|]. cbn [map filter]. intros Hn.
  destruct (String.eqb_spec (Vote.id x) vid) as [E|_].
  - exfalso. apply Hn. left. exact E.
  - cbn [negb]. f_equal. apply IH. intros H. apply Hn. right. exact H.
Qed.

(** X13: an insert event followed by the delete event of the same vote
    brings the vote list back when the id was new; for a vote of
    another user the whole state is back, for the user's own vote the
    confirmed and the optimistic vote are both cleared. *)
Theorem insert_then_delete_event (s : State) (v : Vote.t) :
  ~ In (Vote.id v) (map Vote.id (votes s)) ->
  let s' := on_vote_change currentUserName
              (on_vote_change currentUserName s (INSERT v)) (DELETE v) in
  votes s' = votes s /\ isVoting s' = isVoting s /\
  (user_name v <> currentUserName -> s' = s) /\
  (user_name v = currentUserName -> userVote s' = None /\ optimisticVote s' = None).
Proof.
  intros Hfresh. cbv zeta. cbn [on_vote_change].
  assert (F : filter (fun vote => negb (Vote.id vote =? Vote.id v)) (votes s ++ [v])%list
              = votes s).
  { rewrite filter_app, (filter_id_fresh _ _ Hfresh). cbn [filter].
    rewrite String.eqb_refl. cbn [negb]. apply app_nil_r. }
  destruct (String.eqb_spec (user_name v) currentUserName) as [E|E];
    unfold setVotes, setUserVote, setOptimisticVote;
    cbn [votes isVoting userVote optimisticVote];
    rewrite F.
  - split; [reflexivity|]. split; [reflexivity|].
    split; [intros Hne; contradiction|intros _; split; reflexivity].
  - split; [reflexivity|]. split; [reflexivity|].
    split; [intros _; symmetry; apply state_eta|intros He; contradiction].
Qed.

Lemma count_others_remove (t : VoteType) (l1 l2 : list Vote.t) (v : Vote.t) :
  count_others currentUserName t (l1 ++ v :: l2) =
  count_others currentUserName t (l1 ++ l2) + count_others currentUserName t [v].
Proof. rewrite !count_others_app. cbn [app]. rewrite (count_others_app _ t [v] l2). lia. Qed.

Lemma filter_id_unique (l1 l2 : list Vote.t) (v : Vote.t) :
  NoDup (map Vote.id (l1 ++ v :: l2)) ->
  filter (fun vote => negb (Vote.id vote =? Vote.id v)) (l1 ++ v :: l2) = (l1 ++ l2)%list.
Proof.
  intros Hnd. rewrite map_app in Hnd. cbn [map] in Hnd.
  pose proof (NoDup_remove_2 _ _ _ Hnd) as Hn.
  rewrite filter_app. cbn [filter]. rewrite String.eqb_refl. cbn [negb].
  rewrite !filter_id_fresh; [reflexivity| |];
    intros H; apply Hn, in_or_app; [right|left]; exact H.
Qed.

(** X14: events about other users' votes leave the user's own vote,
    the optimistic marker and the in-flight flag alone; an insert adds
    exactly one to the tally of its type and, with vote ids unique, the
    delete of a listed vote takes exactly one off. *)
Theorem other_users_events (s : State) (v : Vote.t) :
  user_name v <> currentUserName ->
  let inserted := on_vote_change currentUserName s (INSERT v) in
  let deleted := on_vote_change currentUserName s (DELETE v) in
  (userVote inserted = userVote s /\ optimisticVote inserted = optimisticVote s /\
   isVoting inserted = isVoting s) /\
  (userVote deleted = userVote s /\ optimisticVote deleted = optimisticVote s /\
   isVoting deleted = isVoting s) /\
  trueVotes currentUserName inserted =
    trueVotes currentUserName s + one_if (Some (vote_type v)) vote_true /\
  fakeVotes currentUserName inserted =
    fakeVotes currentUserName s + one_if (Some (vote_type v)) vote_fake /\
  (In v (votes s) -> NoDup (map Vote.id (votes s)) ->
   trueVotes currentUserName deleted + one_if (Some (vote_type v)) vote_true =
     trueVotes currentUserName s /\
   fakeVotes currentUserName deleted + one_if (Some (vote_type v)) vote_fake =
     fakeVotes currentUserName s).
Proof.
  intros Hother. cbv zeta. cbn [on_vote_change].
  destruct (String.eqb_spec (user_name v) currentUserName) as [E|_]; [contradiction|].
  split; [repeat split|]. split; [repeat split|].
  assert (Hone : forall t, count_others currentUserName t [v] = one_if (Some (vote_type v)) t).
  { intros t. cbn [count_others one_if].
    destruct (String.eqb_spec (user_name v) currentUserName); [contradiction|].
    destruct (Vote.eqb (vote_type v) t); reflexivity. }
  rewrite !trueVotes_spec, !fakeVotes_spec.
  cbn [setVotes votes userVote optimisticVote].
  rewrite !count_others_app, !Hone.
  split; [lia|]. split; [lia|].
  intros Hin Hnd. apply in_split in Hin as (l1 & l2 & E). rewrite E in *.
  rewrite (filter_id_unique _ _ _ Hnd), !count_others_remove, !Hone. lia.
Qed.

End VoteFlowProofs.

Section DateProofs.
Import PostComponent.
Local Open Scope Z_scope.

Lemma div_lt_iff (a b c : Z) : 0 < b -> (a / b < c <-> a < b * c).
Proof.
  intros Hb. split; intros H.
  - destruct (Z_lt_le_dec a (b * c)) as [Hlt|Hge]; [exact Hlt|].
    pose proof (Z.div_le_lower_bound a b c Hb Hge). lia.
  - apply Z.div_lt_upper_bound; assumption.
Qed.

(** X15: [formatDate] shows whole minutes below one hour, whole hours
    (1 to 23) below one day and whole days from then on, each the age
    in milliseconds divided by the length of the unit and rounded
    down; a timestamp in the future is shown as a negative number of
    minutes, however far ahead it is. *)
Theorem formatDate_units (date now : Z) :
  let age := now - date in
  (age < 3600000 ->
   formatDate date now = (show_int (age / 60000) ++ "m ago")%string /\ age / 60000 < 60) /\
  (3600000 <= age -> age < 86400000 ->
   formatDate date now = (show_int (age / 3600000) ++ "h ago")%string /\
   1 <= age / 3600000 /\ age / 3600000 < 24) /\
  (86400000 <= age ->
   formatDate date now = (show_int (age / 86400000) ++ "d ago")%string /\
   1 <= age / 86400000).
Proof.
  cbv zeta. unfold formatDate. set (age := now - date).
  assert (Hh : age / 60000 / 60 = age / 3600000) by (rewrite Z.div_div by lia; reflexivity).
  assert (Hd : age / 3600000 / 24 = age / 86400000)
    by (rewrite Z.div_div by lia; reflexivity).
  pose proof (div_lt_iff age 60000 60 ltac:(lia)) as M.
  pose proof (div_lt_iff age 3600000 24 ltac:(lia)) as H.
  split; [|split].
  - intros Hage. assert (Hm : age / 60000 < 60) by (apply M; lia).
    rewrite (proj2 (Z.ltb_lt _ _) Hm). auto.
  - intros Hlo Hhi.
    assert (Hm : ~ age / 60000 < 60) by (rewrite M; lia).
    apply Z.ltb_nlt in Hm. rewrite Hm, Hh.
    assert (Hlt : age / 3600000 < 24) by (apply H; lia).
    rewrite (proj2 (Z.ltb_lt _ _) Hlt).
    split; [reflexivity|]. split; [|exact Hlt].
    apply Z.div_le_lower_bound; lia.
  - intros Hlo.
    assert (Hm : ~ age / 60000 < 60) by (rewrite M; lia).
    apply Z.ltb_nlt in Hm. rewrite Hm, Hh.
    assert (Hge : ~ age / 3600000 < 24) by (rewrite H; lia).
    apply Z.ltb_nlt in Hge. rewrite Hge, Hd.
    split; [reflexivity|]. apply Z.div_le_lower_bound; lia.
Qed.

End DateProofs.

(** Ninety minutes ago, and three days ahead. *)
Lemma formatDate_units_witness :
  PostComponent.formatDate 0 5400000 = "1h ago" /\
  PostComponent.formatDate 259200000 0 = "-4320m ago".
Proof.
  split.
  - rewrite (proj1 (proj1 (proj2 (formatDate_units 0 5400000)) ltac:(lia) ltac:(lia))).
    reflexivity.
  - rewrite (proj1 (proj1 (formatDate_units 259200000 0) ltac:(lia))). reflexivity.
Defined.

Section DeleteProofs.
Import PostComponent.

Variables id currentUserName authorName : string.

Lemma posts_delete_keeps_post (db : Storage.Db) (where_ : Storage.posts_row -> bool)
    (p : Storage.posts_row) :
  In p (Storage.posts db) -> where_ p = false ->
  In p (Storage.posts (Storage.posts_delete db where_)).
Proof.
  intros Hin Hw. cbn [Storage.posts_delete Storage.posts].
  apply filter_In. split; [exact Hin|]. rewrite Hw. reflexivity.
Qed.

Lemma posts_delete_keeps_vote (db : Storage.Db) (where_ : Storage.posts_row -> bool)
    (v : Storage.votes_row) :
  In v (Storage.votes db) ->
  (forall q, In q (Storage.posts db) -> where_ q = true ->
             Storage.p_id q <> Storage.post_id v) ->
  In v (Storage.votes (Storage.posts_delete db where_)).
Proof.
  intros Hin Hother. cbn [Storage.posts_delete Storage.votes].
  apply filter_In. split; [exact Hin|]. apply negb_true_iff.
  apply not_true_is_false. intros X.
  apply existsb_exists in X as (q & Hq & E). apply filter_In in Hq as [Hq Hw].
  apply String.eqb_eq in E. exact (Hother q Hq Hw E).
Qed.

(** X16: [handleDelete] does nothing at all for a user who is not the
    author, and sends nothing when the confirmation is declined; the
    only statement it ever sends is the delete of this post id under
    the current user's name.  Whatever rows that statement reaches,
    every post with another id or another author and every vote on
    another post stays; under the policies of the migration it reaches
    none.  When the handler has run, the in-progress flag ends up
    cleared, whatever the outcome. *)
Theorem handleDelete_only_own (db : Storage.Db) (isDeleting confirmed : bool)
    (outcome : DeleteOutcome) :
  let r := handleDelete id currentUserName authorName isDeleting confirmed outcome in
  let own := fun p => (Storage.p_id p =? id) && (Storage.author_name p =? currentUserName) in
  (authorName <> currentUserName -> r = (isDeleting, [])) /\
  (confirmed = false ->
   fst r = isDeleting /\ forall e, In e (snd r) -> delete_request e = None) /\
  (forall e rq, In e (snd r) -> delete_request e = Some rq ->
     rq = Storage.DeletePost id currentUserName) /\
  (forall p, In p (Storage.posts db) ->
     Storage.p_id p <> id \/ Storage.author_name p <> currentUserName ->
     In p (Storage.posts (Storage.posts_delete db own))) /\
  (forall v, In v (Storage.votes db) -> Storage.post_id v <> id ->
     In v (Storage.votes (Storage.posts_delete db own))) /\
  Storage.step db (Storage.DeletePost id currentUserName) = db /\
  (authorName = currentUserName -> confirmed = true -> fst r = false).
Proof.
  cbv zeta.
  assert (Hposts : forall p, In p (Storage.posts db) ->
            Storage.p_id p <> id \/ Storage.author_name p <> currentUserName ->
            In p (Storage.posts (Storage.posts_delete db
                    (fun p => (Storage.p_id p =? id)
                              && (Storage.author_name p =? currentUserName))))).
  { intros p Hin Hne. apply posts_delete_keeps_post; [exact Hin|].
    apply andb_false_iff. destruct Hne as [H|H]; [left|right]; apply String.eqb_neq, H. }
  assert (Hvotes : forall v, In v (Storage.votes db) -> Storage.post_id v <> id ->
            In v (Storage.votes (Storage.posts_delete db
                    (fun p => (Storage.p_id p =? id)
                              && (Storage.author_name p =? currentUserName))))).
  { intros v Hin Hne. apply posts_delete_keeps_vote; [exact Hin|].
    intros q _ Hw E. apply andb_true_iff in Hw as [Hid _].
    apply String.eqb_eq in Hid. congruence. }
  unfold handleDelete.
  destruct (String.eqb_spec authorName currentUserName) as [Ea|Ea]; cbn [negb].
  - destruct confirmed; cbn [negb fst snd].
    + split; [intros H; contradiction|]. split; [discriminate|].
      split.
      { intros e rq He Hrq.
        destruct outcome; cbn in He;
          repeat (destruct He as [<-|He]; [cbn in Hrq; congruence|]); destruct He. }
      split; [exact Hposts|]. split; [exact Hvotes|]. split; [reflexivity|].
      intros _ _. reflexivity.
    + split; [intros H; contradiction|].
      split; [intros _; split; [reflexivity|]; intros e [<-|[]]; reflexivity|].
      split; [intros e rq [<-|[]] Hrq; discriminate Hrq|].
      split; [exact Hposts|]. split; [exact Hvotes|]. split; [reflexivity|].
      discriminate.
  - cbn [fst snd].
    split; [reflexivity|]. split; [intros _; split; [reflexivity|intros e []]|].
    split; [intros e rq []|].
    split; [exact Hposts|]. split; [exact Hvotes|]. split; [reflexivity|].
    intros H. contradiction.
Qed.

End DeleteProofs.

(** Ann deletes her post: whatever the statement reaches, Bob's post
    stays. *)
Lemma handleDelete_only_own_witness :
  let p1 := Storage.mk_post "p1" "ann" "sky is blue" None 1 in
  let p2 := Storage.mk_post "p2" "bob" "grass is red" None 2 in
  let db := {| Storage.users := []; Storage.posts := [p1; p2]; Storage.votes := [] |} in
  In p2 (Storage.posts
           (Storage.posts_delete db
              (fun p => (Storage.p_id p =? "p1") && (Storage.author_name p =? "ann")))).
Proof.
  cbv zeta.
  refine (proj1 (proj2 (proj2 (proj2
            (handleDelete_only_own "p1" "ann" "ann"
               {| Storage.users := [];
                  Storage.posts := [Storage.mk_post "p1" "ann" "sky is blue" None 1;
                                    Storage.mk_post "p2" "bob" "grass is red" None 2];
                  Storage.votes := [] |}
               false true PostComponent.DeleteDone))))
            (Storage.mk_post "p2" "bob" "grass is red" None 2) _ _).
  - right. left. reflexivity.
  - left. discriminate.
Defined.

Lemma vote_shows_at_once_witness :
  let s := {| PostComponent.votes := [Vote.mk "v1" "p" "bob" Vote.vote_true];
              PostComponent.userVote := None; PostComponent.isVoting := false;
              PostComponent.optimisticVote := None |} in
  PostComponent.trueVotes "ann"
    (fst (PostComponent.handleVote_begin "p" "ann" s Vote.vote_true)) = 2%nat.
Proof.
  cbv zeta.
  pose proof (vote_shows_at_once "p" "ann"
                {| PostComponent.votes := [Vote.mk "v1" "p" "bob" Vote.vote_true];
                   PostComponent.userVote := None; PostComponent.isVoting := false;
                   PostComponent.optimisticVote := None |}
                Vote.vote_true eq_refl) as H.
  cbv zeta in H. rewrite (proj1 H). reflexivity.
Defined.

Lemma failed_vote_restores_state_witness :
  fst (PostComponent.handleVote "p" "ann" PostComponent.initial Vote.vote_fake
         (PostComponent.Failed (Some "23503")))
  = PostComponent.initial.
Proof.
  apply failed_vote_restores_state; [reflexivity|discriminate].
Defined.

Lemma successful_clicks_insert_once_witness :
  (List.length
     (filter PostComponent.is_insert
        (snd (PostComponent.handleVote_calls "p" "ann" PostComponent.initial
                [(Vote.vote_true, PostComponent.Inserted);
                 (Vote.vote_fake, PostComponent.Inserted);
                 (Vote.vote_true, PostComponent.Inserted)]))) <= 1)%nat.
Proof.
  apply successful_clicks_insert_once. repeat constructor.
Defined.

Lemma insert_then_delete_event_witness :
  let s := {| PostComponent.votes := [Vote.mk "v1" "p" "bob" Vote.vote_true];
              PostComponent.userVote := Some Vote.vote_fake;
              PostComponent.isVoting := false;
              PostComponent.optimisticVote := None |} in
  let v := Vote.mk "v2" "p" "cat" Vote.vote_fake in
  PostComponent.on_vote_change "ann"
    (PostComponent.on_vote_change "ann" s (PostComponent.INSERT v)) (PostComponent.DELETE v)
  = s.
Proof.
  cbv zeta.
  refine (proj1 (proj2 (proj2 (insert_then_delete_event "ann" _ _ _))) _).
  - cbn. intros [H|[]]. discriminate.
  - discriminate.
Defined.

Lemma other_users_events_witness :
  let s := {| PostComponent.votes := [Vote.mk "v1" "p" "bob" Vote.vote_true];
              PostComponent.userVote := Some Vote.vote_fake;
              PostComponent.isVoting := false;
              PostComponent.optimisticVote := None |} in
  PostComponent.trueVotes "ann"
    (PostComponent.on_vote_change "ann" s
       (PostComponent.INSERT (Vote.mk "v2" "p" "cat" Vote.vote_true))) = 2%nat.
Proof.
  cbv zeta.
  assert (Hother : Vote.user_name (Vote.mk "v2" "p" "cat" Vote.vote_true) <> "ann")
    by discriminate.
  pose proof (other_users_events "ann"
                {| PostComponent.votes := [Vote.mk "v1" "p" "bob" Vote.vote_true];
                   PostComponent.userVote := Some Vote.vote_fake;
                   PostComponent.isVoting := false;
                   PostComponent.optimisticVote := None |}
                (Vote.mk "v2" "p" "cat" Vote.vote_true) Hother) as H.
  cbv zeta in H. rewrite (proj1 (proj2 (proj2 H))). reflexivity.
Defined.

Section LoadProofs.
Import Vote PostComponent.
Local Open Scope nat_scope.
Local Open Scope string_scope.

Variables id currentUserName : string.

Lemma to_text_eqb (a b : VoteType) :
  (to_text a =? to_text b) = Vote.eqb a b.
Proof. destruct a, b; reflexivity. Qed.

Lemma same_vote_names (rows : list Storage.votes_row) (data : list Vote.t) :
  Forall2 same_vote rows data ->
  map Storage.user_name rows = map Vote.user_name data.
Proof.
  induction 1 as [|r v rows data (_ & _ & Hu & _) _ IH]; [reflexivity|].
  cbn [map]. congruence.
Qed.

Lemma same_vote_count (t : VoteType) (rows : list Storage.votes_row) (data : list Vote.t) :
  Forall2 same_vote rows data ->
  List.length (filter (fun r => Storage.vote_type r =? to_text t) rows) =
  List.length (filter (fun v => Vote.eqb (vote_type v) t) data).
Proof.
  induction 1 as [|r v rows data (_ & _ & _ & Ht) _ IH]; [reflexivity|].
  cbn [filter]. rewrite Ht, to_text_eqb.
  destruct (Vote.eqb (vote_type v) t); cbn [List.length]; congruence.
Qed.

Lemma filter_true_all {A} (f : A -> bool) (l : list A) :
  (forall x, In x l -> f x = true) -> filter f l = l.
Proof.
  induction l as [|a l IH]; intros H; [reflexivity|]. cbn [filter].
  rewrite (H a (or_introl eq_refl)). f_equal. apply IH.
  intros x Hx. apply H. right. exact Hx.
Qed.

(** With at most one vote per user, counting all votes of a type is
    counting those of the others and adding the user's own. *)
Lemma count_with_own (t : VoteType) (data : list Vote.t) :
  NoDup (map Vote.user_name data) ->
  List.length (filter (fun v => Vote.eqb (vote_type v) t) data) =
  count_others currentUserName t data +
  one_if (option_map vote_type
            (find (fun vote => user_name vote =? currentUserName) data)) t.
Proof.
  induction data as [|v data IH]; [reflexivity|].
  cbn [map]. intros Hnd. apply NoDup_cons_iff in Hnd as [Hnotin Hnd].
  cbn [filter find count_others].
  destruct (String.eqb_spec (user_name v) currentUserName) as [E|E].
  - assert (Hrest : List.length (filter (fun v => Vote.eqb (vote_type v) t) data)
                    = count_others currentUserName t data).
    { rewrite count_others_filter. f_equal. f_equal. symmetry. apply filter_true_all.
      intros x Hx. apply negb_true_iff, String.eqb_neq. intros Ex.
      apply Hnotin. rewrite E, <- Ex. apply in_map, Hx. }
    cbn [option_map one_if]. destruct (Vote.eqb (vote_type v) t); cbn [List.length]; lia.
  - specialize (IH Hnd). destruct (Vote.eqb (vote_type v) t); cbn [List.length]; lia.
Qed.

Lemma select_names_unique (db : Storage.Db) :
  Storage.votes_ok db ->
  NoDup (map Storage.user_name (Storage.votes_select_by_post db id)).
Proof.
  intros Hok. unfold Storage.votes_select_by_post.
  pose proof (NoDup_map_filter (fun v => (Storage.post_id v, Storage.user_name v))
                (fun v => Storage.post_id v =? id) _ (Storage.voter_unique _ Hok)) as Hnd.
  assert (Hall : forall r, In r (filter (fun v => Storage.post_id v =? id) (Storage.votes db)) ->
                           Storage.post_id r = id).
  { intros r Hr. apply filter_In in Hr as [_ E]. apply String.eqb_eq, E. }
  revert Hnd Hall. generalize (filter (fun v => Storage.post_id v =? id) (Storage.votes db)).
  induction l as [|r l IH]; intros Hnd Hall; [constructor|].
  cbn [map] in *. apply NoDup_cons_iff in Hnd as [Hnotin Hnd]. constructor.
  - intros Hin. apply Hnotin. apply in_map_iff in Hin as (r' & Eu & Hr').
    apply in_map_iff. exists r'. split; [|exact Hr'].
    rewrite Eu, (Hall r' (or_intror Hr')), (Hall r (or_introl eq_refl)). reflexivity.
  - apply IH; [exact Hnd|]. intros r' Hr'. apply Hall. right. exact Hr'.
Qed.

Lemma find_own_row (rows : list Storage.votes_row) (data : list Vote.t) :
  Forall2 same_vote rows data ->
  NoDup (map Storage.user_name rows) ->
  (forall r, In r rows -> Storage.user_name r = currentUserName ->
     exists t, option_map vote_type
                 (find (fun vote => user_name vote =? currentUserName) data) = Some t /\
               Storage.vote_type r = to_text t) /\
  ((forall r, In r rows -> Storage.user_name r <> currentUserName) ->
   find (fun vote => user_name vote =? currentUserName) data = None).
Proof.
  induction 1 as [|r0 v0 rows data (_ & _ & Hu & Ht) _ IH]; intros Hnd.
  - split; [intros r []|reflexivity].
  - cbn [map] in Hnd. apply NoDup_cons_iff in Hnd as [Hnotin Hnd].
    destruct (IH Hnd) as [IH1 IH2]. cbn [find]. split.
    + intros r [<-|Hr] Er.
      * rewrite <- Hu, Er, String.eqb_refl. exists (vote_type v0). auto.
      * destruct (String.eqb_spec (user_name v0) currentUserName) as [E|E].
        -- exfalso. apply Hnotin. rewrite Hu, E, <- Er. apply in_map, Hr.
        -- exact (IH1 r Hr Er).
    + intros Hnone.
      destruct (String.eqb_spec (user_name v0) currentUserName) as [E|E].
      * exfalso. apply (Hnone r0 (or_introl eq_refl)). congruence.
      * apply IH2. intros r Hr. apply Hnone. right. exact Hr.
Qed.

(** X17: after the votes of the post have been loaded from a table that
    satisfies its constraints, with no vote pending, the two tallies
    are the numbers of "true" and "fake" rows of that post, the user's
    own row included once, and the user's vote is the type of that row
    or nothing when there is none. *)
Theorem loaded_tallies_match_table (db : Storage.Db) (data : list Vote.t)
    (captured : option VoteType) (s0 : State) :
  Storage.votes_ok db ->
  Forall2 same_vote (Storage.votes_select_by_post db id) data ->
  optimisticVote s0 = None ->
  let rows := Storage.votes_select_by_post db id in
  let s := fst (fetchVotes currentUserName captured s0 (FetchData (Some data))) in
  trueVotes currentUserName s =
    List.length (filter (fun r => Storage.vote_type r =? "true") rows) /\
  fakeVotes currentUserName s =
    List.length (filter (fun r => Storage.vote_type r =? "fake") rows) /\
  (forall r, In r rows -> Storage.user_name r = currentUserName ->
     exists t, userVote s = Some t /\ Storage.vote_type r = to_text t) /\
  ((forall r, In r rows -> Storage.user_name r <> currentUserName) -> userVote s = None).
Proof.
  intros Hok Hdata Hopt. cbv zeta.
  pose proof (select_names_unique db Hok) as Hnd.
  pose proof Hnd as Hnd'. rewrite (same_vote_names _ _ Hdata) in Hnd'.
  set (own := find (fun vote => user_name vote =? currentUserName) data).
  assert (Hs : forall s, s = fst (fetchVotes currentUserName captured s0 (FetchData (Some data))) ->
               votes s = data /\ userVote s = option_map vote_type own /\
               optimisticVote s = None).
  { intros s ->. cbn [fetchVotes fst]. fold own.
    destruct (match captured with
              | Some a => match option_map vote_type own with
                          | Some b => Vote.eqb a b | None => false end
              | None => match option_map vote_type own with
                        | Some _ => false | None => true end
              end); cbn; auto. }
  destruct (Hs _ eq_refl) as (Hv & Hu & Ho).
  rewrite trueVotes_spec, fakeVotes_spec, Hv, Hu, Ho.
  change "true" with (to_text vote_true). change "fake" with (to_text vote_fake).
  rewrite !(same_vote_count _ _ _ Hdata), !(count_with_own _ _ Hnd'). fold own.
  assert (Heff : effective None (option_map vote_type own) = option_map vote_type own)
    by (destruct (option_map vote_type own); reflexivity).
  rewrite Heff. split; [reflexivity|]. split; [reflexivity|].
  destruct (find_own_row _ _ Hdata Hnd) as [H1 H2]. fold own in H1, H2. split.
  - exact H1.
  - intros Hnone. rewrite (H2 Hnone). reflexivity.
Qed.

End LoadProofs.

(** One "true" vote by the user and one "fake" vote by somebody else. *)
Lemma loaded_tallies_match_table_witness :
  let db := {| Storage.users := [];
               Storage.posts := [Storage.mk_post "p1" "bob" "sky is blue" None 1];
               Storage.votes := [Storage.mk_vote "v1" "p1" "ann" "true" 2;
                                 Storage.mk_vote "v2" "p1" "bob" "fake" 3] |} in
  let data := [Vote.mk "v1" "p1" "ann" Vote.vote_true;
               Vote.mk "v2" "p1" "bob" Vote.vote_fake] in
  let s := fst (PostComponent.fetchVotes "ann" None PostComponent.initial
                  (PostComponent.FetchData (Some data))) in
  PostComponent.trueVotes "ann" s = 1%nat /\ PostComponent.fakeVotes "ann" s = 1%nat.
Proof.
  cbv zeta.
  assert (Hok : Storage.votes_ok
                  {| Storage.users := [];
                     Storage.posts := [Storage.mk_post "p1" "bob" "sky is blue" None 1];
                     Storage.votes := [Storage.mk_vote "v1" "p1" "ann" "true" 2;
                                       Storage.mk_vote "v2" "p1" "bob" "fake" 3] |}).
  { constructor; cbn.
    - repeat constructor; cbn; intuition discriminate.
    - repeat constructor; cbn; intuition discriminate.
    - intros v [<-|[<-|[]]]; eexists; (split; [left; reflexivity|reflexivity]).
    - intros v [<-|[<-|[]]]; reflexivity. }
  pose proof (loaded_tallies_match_table "p1" "ann" _
                [Vote.mk "v1" "p1" "ann" Vote.vote_true;
                 Vote.mk "v2" "p1" "bob" Vote.vote_fake]
                None PostComponent.initial Hok
                ltac:(repeat constructor) eq_refl) as H.
  cbv zeta in H. destruct H as (Ht & Hf & _). rewrite Ht, Hf. split; reflexivity.
Defined.

(* ------------------------------------------------------------------ *)
(** * Further properties of the Feed *)

Section FeedMoreProofs.
Import FeedComponent.
Local Open Scope nat_scope.
Local Open Scope string_scope.

Lemma update_ids (new : PostData) (l : list PostData) :
  map id (map (fun post => if id post =? id new then new else post) l) = map id l.
Proof.
  rewrite map_map. apply map_ext. intros p.
  destruct (String.eqb_spec (id p) (id new)); congruence.
Qed.

Lemma filter_gone (old_id : string) (l : list PostData) :
  ~ In old_id (map id (filter (fun post => negb (id post =? old_id)) l)).
Proof.
  intros H. apply in_map_iff in H as (p & E & Hp). apply filter_In in Hp as [_ Hn].
  rewrite E, String.eqb_refl in Hn. discriminate.
Qed.

(** X18: post ids stay unique in the feed under DELETE and UPDATE
    events, while an INSERT event keeps them unique exactly when its
    id is not listed yet: the handler does not look for the post
    before it prepends. *)
Theorem feed_ids_unique (posts : list PostData) :
  (forall new,
     NoDup (map id (on_change posts (INSERT new))) <->
     NoDup (map id posts) /\ ~ In (id new) (map id posts)) /\
  (NoDup (map id posts) ->
   (forall old_id, NoDup (map id (on_change posts (DELETE old_id)))) /\
   (forall new, NoDup (map id (on_change posts (UPDATE new))))).
Proof.
  split.
  - intros new. cbn [on_change map]. rewrite NoDup_cons_iff. tauto.
  - intros Hnd. split.
    + intros old_id. cbn [on_change]. apply NoDup_map_filter, Hnd.
    + intros new. cbn [on_change]. rewrite update_ids. exact Hnd.
Qed.

(** X19: how feed events compose: an INSERT followed by the DELETE of
    the same id gives the list back when the id was new; a repeated
    DELETE or UPDATE changes nothing more; an UPDATE that arrives
    after the DELETE of its post does not bring the post back. *)
Theorem feed_events_compose (posts : list PostData) :
  (forall new, ~ In (id new) (map id posts) ->
     on_change (on_change posts (INSERT new)) (DELETE (id new)) = posts) /\
  (forall old_id,
     on_change (on_change posts (DELETE old_id)) (DELETE old_id)
     = on_change posts (DELETE old_id)) /\
  (forall new,
     on_change (on_change posts (UPDATE new)) (UPDATE new) = on_change posts (UPDATE new)) /\
  (forall new,
     on_change (on_change posts (DELETE (id new))) (UPDATE new)
     = on_change posts (DELETE (id new))).
Proof.
  split; [|split; [|split]].
  - intros new Hfresh. cbn [on_change filter]. rewrite String.eqb_refl. cbn [negb].
    apply filter_absent, Hfresh.
  - intros old_id. cbn [on_change]. apply filter_absent, filter_gone.
  - intros new. cbn [on_change]. rewrite map_map. apply map_ext. intros p.
    destruct (String.eqb_spec (id p) (id new)) as [E|E].
    + rewrite String.eqb_refl. reflexivity.
    + destruct (String.eqb_spec (id p) (id new)); [contradiction|reflexivity].
  - intros new. cbn [on_change]. apply map_absent, filter_gone.
Qed.

(** X20: the local edit handed down by the Feed changes only the
    content and the image of the posts with that id (an empty image URL
    becoming none) and keeps ids, authors, timestamps and order; the
    realtime UPDATE for the same id then replaces the edited entry by
    the row of the event, as if the local edit had not happened. *)
Theorem handlePostUpdate_local (posts : list PostData)
    (postId updatedContent : string) (updatedImageUrl : option string) :
  let posts' := handlePostUpdate posts postId updatedContent updatedImageUrl in
  map id posts' = map id posts /\
  map author_name posts' = map author_name posts /\
  map created_at posts' = map created_at posts /\
  (forall i p, nth_error posts i = Some p -> id p <> postId -> nth_error posts' i = Some p) /\
  (forall i p, nth_error posts i = Some p -> id p = postId ->
     exists p', nth_error posts' i = Some p' /\ content p' = updatedContent /\
                (image_url p' = None <->
                 updatedImageUrl = None \/ updatedImageUrl = Some "") /\
                (forall u, u <> "" -> updatedImageUrl = Some u -> image_url p' = Some u)) /\
  (forall new, id new = postId ->
     on_change posts' (UPDATE new) = on_change posts (UPDATE new)).
Proof.
  cbv zeta. unfold handlePostUpdate.
  split; [rewrite map_map; apply map_ext; intros p; destruct (id p =? postId); reflexivity|].
  split; [rewrite map_map; apply map_ext; intros p; destruct (id p =? postId); reflexivity|].
  split; [rewrite map_map; apply map_ext; intros p; destruct (id p =? postId); reflexivity|].
  split.
  { intros i p Hi Hne. rewrite nth_error_map, Hi. cbn [option_map].
    destruct (String.eqb_spec (id p) postId); [contradiction|reflexivity]. }
  split.
  { intros i p Hi E. rewrite nth_error_map, Hi. cbn [option_map].
    rewrite E, String.eqb_refl. eexists. split; [reflexivity|]. cbn [content image_url].
    split; [reflexivity|]. split.
    - destruct updatedImageUrl as [u|]; [|tauto].
      destruct (String.eqb_spec u "") as [->|Hu]; [tauto|].
      split; [discriminate|]. intros [H|H]; [discriminate|congruence].
    - intros u Hu ->. destruct (String.eqb_spec u ""); [contradiction|reflexivity]. }
  intros new <-. cbn [on_change]. rewrite map_map. apply map_ext. intros p.
  destruct (String.eqb_spec (id p) (id new)) as [E|E]; cbn [id].
  - rewrite E, String.eqb_refl. reflexivity.
  - destruct (String.eqb_spec (id p) (id new)); [contradiction|reflexivity].
Qed.

End FeedMoreProofs.

Lemma feed_ids_unique_witness :
  let a := FeedComponent.mk "a" "ann" "one" None "t2" in
  let b := FeedComponent.mk "b" "bob" "two" None "t1" in
  NoDup (map FeedComponent.id (FeedComponent.on_change [a; b] (FeedComponent.DELETE "a"))) /\
  ~ NoDup (map FeedComponent.id (FeedComponent.on_change [a; b] (FeedComponent.INSERT a))).
Proof.
  cbv zeta.
  assert (Hnd : NoDup (map FeedComponent.id
                         [FeedComponent.mk "a" "ann" "one" None "t2";
                          FeedComponent.mk "b" "bob" "two" None "t1"])).
  { repeat constructor; cbn; intuition discriminate. }
  split.
  - exact (proj1 (proj2 (feed_ids_unique _) Hnd) "a").
  - intros H. apply (proj1 (feed_ids_unique _)) in H as [_ H]. apply H. left. reflexivity.
Defined.

Lemma feed_events_compose_witness :
  let a := FeedComponent.mk "a" "ann" "one" None "t2" in
  let b := FeedComponent.mk "b" "bob" "two" None "t1" in
  FeedComponent.on_change (FeedComponent.on_change [b] (FeedComponent.INSERT a))
    (FeedComponent.DELETE "a") = [b].
Proof.
  cbv zeta.
  refine (proj1 (feed_events_compose _) (FeedComponent.mk "a" "ann" "one" None "t2") _).
  cbn. intros [H|[]]. discriminate.
Defined.

Lemma handlePostUpdate_local_witness :
  let a := FeedComponent.mk "a" "ann" "one" (Some "https://img") "t2" in
  let b := FeedComponent.mk "b" "bob" "two" None "t1" in
  let row := FeedComponent.mk "a" "ann" "one, edited" None "t2" in
  FeedComponent.on_change
    (FeedComponent.handlePostUpdate [a; b] "a" "draft" (Some ""))
    (FeedComponent.UPDATE row) = [row; b].
Proof.
  cbv zeta.
  rewrite (proj2 (proj2 (proj2 (proj2 (proj2
             (handlePostUpdate_local _ "a" "draft" (Some ""))))))
             (FeedComponent.mk "a" "ann" "one, edited" None "t2") eq_refl).
  reflexivity.
Defined.

(* ------------------------------------------------------------------ *)
(** * Further properties of the tables *)

Section TablesProofs.
Import Storage.
Local Open Scope nat_scope.
Local Open Scope string_scope.

Lemma existsb_eqb_fresh {A} (f : A -> string) (k : string) (l : list A) :
  existsb (fun x => f x =? k) l = false -> forall y, In y l -> f y <> k.
Proof.
  intros H y Hy E. pose proof (existsb_false_forall _ _ H y Hy) as F. cbn in F.
  rewrite E, String.eqb_refl in F. discriminate.
Qed.

Lemma apply_rows_ok (db db' : Db) (rq : Request) :
  rows_ok db -> apply db rq = inl db' -> rows_ok db'.
Proof.
  intros Hok. pose proof Hok as [Hu Hn Hp Hc].
  destruct rq as [row|row|pid c u|pid author|row]; cbn [apply has_policy].
  - unfold users_upsert. cbn [has_policy].
    destruct (existsb (fun u => name u =? name row) (users db)) eqn:En; [discriminate|].
    destruct (existsb (fun u => u_id u =? u_id row) (users db)) eqn:Ei; [discriminate|].
    intros H. injection H as <-. constructor; cbn [users posts]; try assumption.
    + apply NoDup_map_snoc; [exact Hu|]. exact (existsb_eqb_fresh _ _ _ Ei).
    + apply NoDup_map_snoc; [exact Hn|]. exact (existsb_eqb_fresh _ _ _ En).
  - unfold posts_insert. destruct (content_check (content row)) eqn:Ec; cbn [negb]; [|discriminate].
    destruct (existsb (fun p => p_id p =? p_id row) (posts db)) eqn:Ei; [discriminate|].
    intros H. injection H as <-. constructor; cbn [users posts]; try assumption.
    + apply NoDup_map_snoc; [exact Hp|]. exact (existsb_eqb_fresh _ _ _ Ei).
    + intros p Hin. apply in_app_or in Hin as [Hin|[<-|[]]]; [exact (Hc p Hin)|].
      apply Nat.leb_le, Ec.
  - intros H. injection H as <-. exact Hok.
  - intros H. injection H as <-. exact Hok.
  - unfold votes_insert. destruct (negb _); [discriminate|].
    destruct (existsb _ _); [discriminate|]. destruct (existsb _ _); [discriminate|].
    destruct (negb _); [discriminate|].
    intros H. injection H as <-. constructor; assumption.
Qed.

Lemma run_rows_ok (rqs : list Request) (db : Db) : rows_ok db -> rows_ok (run db rqs).
Proof.
  revert db. induction rqs as [|rq rqs IH]; intros db Hok; [exact Hok|].
  apply IH. unfold step. destruct (apply db rq) as [db'|e] eqn:E; [|exact Hok].
  exact (apply_rows_ok _ _ _ Hok E).
Qed.

(** X21: whatever statements the application sends, starting from
    empty tables: user ids and names and post ids stay unique, no post
    is longer than 500 characters, every vote refers to a post that
    exists and its type is "true" or "fake". *)
Theorem tables_keep_constraints (rqs : list Request) :
  let db := run empty rqs in
  NoDup (map u_id (users db)) /\
  NoDup (map name (users db)) /\
  NoDup (map p_id (posts db)) /\
  (forall p, In p (posts db) -> String.length (content p) <= 500) /\
  (forall v, In v (votes db) -> exists p, In p (posts db) /\ p_id p = post_id v) /\
  (forall v, In v (votes db) -> vote_type v = "true" \/ vote_type v = "fake").
Proof.
  cbv zeta.
  assert (R : rows_ok (run empty rqs)).
  { apply run_rows_ok. constructor; cbn; [constructor|constructor|constructor|intros q []]. }
  pose proof (run_ok rqs empty empty_ok) as V.
  destruct R as [Hu Hn Hp Hc]. destruct V as [_ _ Hfk Hck].
  repeat split; try assumption.
  intros v Hv. specialize (Hck v Hv). unfold vote_type_check in Hck.
  apply orb_true_iff in Hck as [H|H]; apply String.eqb_eq in H; auto.
Qed.

(** X22: a post longer than 500 characters is refused with SQLSTATE
    23514, on insert and on an update that matches a row, and the
    tables stay as they were; an update that matches no row succeeds
    whatever the length and changes nothing. *)
Theorem long_content_refused (db : Db) (c : string) :
  500 < String.length c ->
  (forall row, content row = c ->
     (exists e, posts_insert db row = inr e /\ sqlstate e = "23514") /\
     step db (InsertPost row) = db) /\
  (forall pid u, In pid (map p_id (posts db)) ->
     (exists e, posts_update db (fun p => p_id p =? pid) c u = inr e /\
                sqlstate e = "23514") /\
     step db (UpdatePost pid c u) = db) /\
  (forall pid u, ~ In pid (map p_id (posts db)) ->
     posts_update db (fun p => p_id p =? pid) c u
     = inl {| users := users db; posts := posts db; votes := votes db |}).
Proof.
  intros Hlen.
  assert (Ec : content_check c = false).
  { unfold content_check. apply Nat.leb_gt. exact Hlen. }
  split; [|split].
  - intros row <-. unfold step. cbn [apply has_policy]. unfold posts_insert.
    rewrite Ec. cbn [negb].
    split; [exists check_violation; split; reflexivity|reflexivity].
  - intros pid u Hin. unfold step. cbn [apply has_policy]. unfold posts_update.
    assert (Ex : existsb (fun p => p_id p =? pid) (posts db) = true).
    { apply in_map_iff in Hin as (p & E & Hp). apply existsb_exists. exists p.
      split; [exact Hp|]. rewrite E. apply String.eqb_refl. }
    rewrite Ex, Ec. cbn [andb negb].
    split; [exists check_violation; split; reflexivity|reflexivity].
  - intros pid u Hnotin. unfold posts_update.
    assert (Ex : existsb (fun p => p_id p =? pid) (posts db) = false).
    { destruct (existsb _ _) eqn:X; [|reflexivity]. exfalso.
      apply existsb_exists in X as (p & Hp & E). apply String.eqb_eq in E.
      apply Hnotin. rewrite <- E. apply in_map, Hp. }
    rewrite Ex. cbn [andb]. f_equal. f_equal.
    rewrite <- (map_id (posts db)) at 2. apply map_ext_in. intros p Hp.
    rewrite (existsb_false_forall _ _ Ex p Hp). reflexivity.
Qed.

(** X23: after a vote is inserted, the query for its post returns the
    new row once, beside exactly the rows it returned before, in
    whatever order; the query for any other post returns the same rows
    as before; the posts and the users are untouched. *)
Theorem vote_insert_then_select (db db' : Db) (row : votes_row) :
  votes_insert db row = inl db' ->
  Permutation (votes_select_by_post db' (post_id row))
              (row :: votes_select_by_post db (post_id row)) /\
  ~ In row (votes_select_by_post db (post_id row)) /\
  (forall other, other <> post_id row ->
     Permutation (votes_select_by_post db' other) (votes_select_by_post db other)) /\
  posts db' = posts db /\ users db' = users db.
Proof.
  unfold votes_insert. destruct (negb _); [discriminate|].
  destruct (existsb (fun r => v_id r =? v_id row) (votes db)) eqn:Epk; [discriminate|].
  destruct (existsb (same_voter row) (votes db)); [discriminate|].
  destruct (negb _); [discriminate|].
  intros H. injection H as <-. unfold votes_select_by_post. cbn [votes posts users].
  rewrite !filter_app. cbn [filter]. rewrite String.eqb_refl.
  split; [symmetry; apply Permutation_cons_append|].
  split.
  { intros Hin. apply filter_In in Hin as [Hin _].
    exact (existsb_eqb_fresh v_id _ _ Epk row Hin eq_refl). }
  split; [|split; reflexivity].
  intros other Hne. rewrite filter_app. cbn [filter].
  destruct (String.eqb_spec (post_id row) other); [congruence|].
  rewrite app_nil_r. apply Permutation_refl.
Qed.

(** X24: once the posts with an id have been deleted, a well-formed
    vote for that id under a fresh vote id is refused with the
    foreign-key error 23503: the cascade has left no earlier vote that
    could raise the duplicate error instead. *)
Theorem vote_on_deleted_post (db : Db) (where_ : posts_row -> bool) (row : votes_row) :
  votes_ok db ->
  (forall p, In p (posts db) -> p_id p = post_id row -> where_ p = true) ->
  vote_type_check row = true ->
  ~ In (v_id row) (map v_id (votes db)) ->
  votes_insert (posts_delete db where_) row = inr foreign_key_violation /\
  sqlstate foreign_key_violation = "23503".
Proof.
  intros Hok Hall Hck Hfresh. split; [|reflexivity].
  pose proof (posts_delete_ok db where_ Hok) as Hok'.
  assert (Hgone : forall q, In q (posts (posts_delete db where_)) -> p_id q <> post_id row).
  { intros q Hq E. cbn [posts_delete posts] in Hq. apply filter_In in Hq as [Hq Hw].
    rewrite (Hall q Hq E) in Hw. discriminate. }
  unfold votes_insert. rewrite Hck. cbn [negb].
  assert (E1 : existsb (fun r => v_id r =? v_id row) (votes (posts_delete db where_)) = false).
  { apply not_true_is_false. intros X.
    apply existsb_exists in X as (r & Hr & E). apply String.eqb_eq in E.
    cbn [posts_delete votes] in Hr. apply filter_In in Hr as [Hr _].
    apply Hfresh. rewrite <- E. apply in_map, Hr. }
  assert (E2 : existsb (same_voter row) (votes (posts_delete db where_)) = false).
  { apply not_true_is_false. intros X.
    apply existsb_exists in X as (r & Hr & E). unfold same_voter in E.
    apply andb_true_iff in E as [E _]. apply String.eqb_eq in E.
    destruct (post_exists _ Hok' r Hr) as (q & Hq & Eq).
    apply (Hgone q Hq). congruence. }
  assert (E3 : existsb (fun p => p_id p =? post_id row) (posts (posts_delete db where_)) = false).
  { apply not_true_is_false. intros X.
    apply existsb_exists in X as (q & Hq & E). apply String.eqb_eq in E.
    exact (Hgone q Hq E). }
  rewrite E1, E2, E3. reflexivity.
Qed.

Lemma name_known (db : Db) (n : string) :
  existsb (fun u => name u =? n) (users db) = true <-> In n (map name (users db)).
Proof.
  split.
  - intros Ex. apply existsb_exists in Ex as (u & Hu & E). apply String.eqb_eq in E.
    rewrite <- E. apply in_map, Hu.
  - intros Hin. apply in_map_iff in Hin as (u & E & Hu). apply existsb_exists.
    exists u. split; [exact Hu|]. rewrite E. apply String.eqb_refl.
Qed.

Lemma users_upsert_known (db : Db) (row : users_row) :
  In (name row) (map name (users db)) ->
  users_upsert db row = inr insufficient_privilege.
Proof.
  intros Hin. unfold users_upsert. rewrite (proj2 (name_known db (name row)) Hin).
  reflexivity.
Qed.

(** X25: under the policies of the migration a name is registered
    once: the upsert of a name that is in the table is refused with
    SQLSTATE 42501 and leaves the table as it is; so after one
    accepted upsert, which appends its row, every later one under that
    name is refused, however its id and time are filled in. *)
Theorem users_upsert_once (db : Db) (row row' : users_row) :
  name row' = name row ->
  (In (name row) (map name (users db)) ->
     users_upsert db row = inr insufficient_privilege /\
     step db (UpsertUser row) = db) /\
  (forall db1, users_upsert db row = inl db1 ->
     ~ In (name row) (map name (users db)) /\
     users db1 = (users db ++ [row])%list /\
     users_upsert db1 row' = inr insufficient_privilege /\
     step db1 (UpsertUser row') = db1) /\
  sqlstate insufficient_privilege = "42501".
Proof.
  intros En.
  assert (Hstep : forall d r, users_upsert d r = inr insufficient_privilege ->
                              step d (UpsertUser r) = d).
  { intros d r E. unfold step. cbn [apply has_policy]. rewrite E. reflexivity. }
  split; [|split; [|reflexivity]].
  - intros Hin. pose proof (users_upsert_known db row Hin) as E.
    split; [exact E|exact (Hstep _ _ E)].
  - intros db1 U. unfold users_upsert in U. cbn [has_policy] in U.
    destruct (existsb (fun u => name u =? name row) (users db)) eqn:Ex; [discriminate|].
    destruct (existsb (fun u => u_id u =? u_id row) (users db)); [discriminate|].
    injection U as <-. cbn [users].
    assert (E : users_upsert
                  {| users := (users db ++ [row])%list; posts := posts db;
                     votes := votes db |} row' = inr insufficient_privilege).
    { apply users_upsert_known. cbn [users]. rewrite En, map_app.
      apply in_or_app. right. left. reflexivity. }
    split.
    { intros Hin. apply name_known in Hin. congruence. }
    split; [reflexivity|]. split; [exact E|exact (Hstep _ _ E)].
Qed.

(** X26: an update of the posts with a given id that is accepted sets
    the content and the image of the rows with that id and nothing
    else: every row with another id is there exactly if it was, a row
    with the id is there with the new content and image and its own
    id, author and creation time, no row appears or disappears, and
    the votes and the users stay.  Under the policies of the migration
    the statement as the application sends it reaches no row and
    leaves the table as it is. *)
Theorem posts_update_keeps (db db' : Db) (pid c : string) (u : option string) :
  posts_update db (fun p => p_id p =? pid) c u = inl db' ->
  votes db' = votes db /\ users db' = users db /\
  (forall p, p_id p <> pid -> (In p (posts db') <-> In p (posts db))) /\
  (forall p, In p (posts db) -> p_id p = pid ->
     In {| p_id := p_id p; author_name := author_name p; content := c;
           image_url := u; p_created_at := p_created_at p |} (posts db')) /\
  (forall q, In q (posts db') -> p_id q = pid ->
     content q = c /\ image_url q = u /\
     exists p, In p (posts db) /\ p_id p = pid /\
               author_name p = author_name q /\ p_created_at p = p_created_at q) /\
  List.length (posts db') = List.length (posts db) /\
  apply db (UpdatePost pid c u) = inl db.
Proof.
  unfold posts_update. destruct (_ && _); [discriminate|].
  intros H. injection H as <-. cbn [posts votes users].
  split; [reflexivity|]. split; [reflexivity|]. split; [|split; [|split; [|split]]].
  - intros p Hne. split.
    + intros Hin. apply in_map_iff in Hin as (q & E & Hq).
      destruct (String.eqb_spec (p_id q) pid) as [Eq|Eq].
      * exfalso. apply Hne. rewrite <- E. exact Eq.
      * rewrite <- E. exact Hq.
    + intros Hin. apply in_map_iff. exists p. split; [|exact Hin].
      destruct (String.eqb_spec (p_id p) pid); [contradiction|reflexivity].
  - intros p Hin E. apply in_map_iff. exists p. split; [|exact Hin].
    rewrite E, String.eqb_refl. rewrite <- E. reflexivity.
  - intros q Hin Eq. apply in_map_iff in Hin as (p & E & Hp).
    destruct (String.eqb_spec (p_id p) pid) as [Ep|Ep].
    + rewrite <- E. cbn [content image_url author_name p_created_at].
      split; [reflexivity|]. split; [reflexivity|]. exists p. auto.
    + exfalso. apply Ep. rewrite E. exact Eq.
  - apply length_map.
  - reflexivity.
Qed.

End TablesProofs.

Lemma long_content_refused_witness :
  let c := string_of_list_ascii (repeat "x"%char 501) in
  Storage.step Storage.empty (Storage.InsertPost (Storage.mk_post "p1" "ann" c None 1))
  = Storage.empty.
Proof.
  cbv zeta.
  refine (proj2 (proj1 (long_content_refused Storage.empty
                          (string_of_list_ascii (repeat "x"%char 501)) _)
                   (Storage.mk_post "p1" "ann" (string_of_list_ascii (repeat "x"%char 501))
                      None 1)
                   eq_refl)).
  vm_compute. lia.
Defined.

Lemma vote_insert_then_select_witness :
  let db := {| Storage.users := [];
               Storage.posts := [Storage.mk_post "p1" "bob" "sky is blue" None 1];
               Storage.votes := [Storage.mk_vote "v1" "p1" "bob" "true" 2] |} in
  let row := Storage.mk_vote "v2" "p1" "ann" "fake" 3 in
  Permutation
    (Storage.votes_select_by_post (Storage.step db (Storage.InsertVote row)) "p1")
    [row; Storage.mk_vote "v1" "p1" "bob" "true" 2].
Proof.
  cbv zeta.
  exact (proj1 (vote_insert_then_select
                  {| Storage.users := [];
                     Storage.posts := [Storage.mk_post "p1" "bob" "sky is blue" None 1];
                     Storage.votes := [Storage.mk_vote "v1" "p1" "bob" "true" 2] |}
                  {| Storage.users := [];
                     Storage.posts := [Storage.mk_post "p1" "bob" "sky is blue" None 1];
                     Storage.votes := [Storage.mk_vote "v1" "p1" "bob" "true" 2;
                                       Storage.mk_vote "v2" "p1" "ann" "fake" 3] |}
                  (Storage.mk_vote "v2" "p1" "ann" "fake" 3) eq_refl)).
Defined.

Lemma vote_on_deleted_post_witness :
  let db := {| Storage.users := [];
               Storage.posts := [Storage.mk_post "p1" "bob" "sky is blue" None 1];
               Storage.votes := [Storage.mk_vote "v1" "p1" "ann" "true" 2] |} in
  Storage.votes_insert
    (Storage.posts_delete db (fun p => (Storage.p_id p =? "p1") && (Storage.author_name p =? "bob")))
    (Storage.mk_vote "v2" "p1" "ann" "fake" 3)
  = inr Storage.foreign_key_violation.
Proof.
  cbv zeta.
  refine (proj1 (vote_on_deleted_post _ _ (Storage.mk_vote "v2" "p1" "ann" "fake" 3)
                   _ _ eq_refl _)).
  - constructor; cbn.
    + repeat constructor; cbn; intuition discriminate.
    + repeat constructor; cbn; intuition discriminate.
    + intros v [<-|[]]; eexists; (split; [left; reflexivity|reflexivity]).
    + intros v [<-|[]]; reflexivity.
  - intros p [<-|[]] _. reflexivity.
  - cbn. intros [H|[]]. discriminate.
Defined.

(** Ann registers; a second sign-in under her name is refused. *)
Lemma users_upsert_once_witness :
  let db := Storage.step Storage.empty (Storage.UpsertUser (Storage.mk_user "u1" "ann" 1)) in
  Storage.users db = [Storage.mk_user "u1" "ann" 1] /\
  Storage.users_upsert db (Storage.mk_user "u2" "ann" 2)
  = inr Storage.insufficient_privilege.
Proof.
  cbv zeta. split; [reflexivity|].
  exact (proj1 (proj2 (proj2 (proj1 (proj2 (users_upsert_once Storage.empty
                         (Storage.mk_user "u1" "ann" 1) (Storage.mk_user "u2" "ann" 2)
                         eq_refl))
                  {| Storage.users := [Storage.mk_user "u1" "ann" 1];
                     Storage.posts := []; Storage.votes := [] |}
                  eq_refl)))).
Defined.

(** An accepted edit of Ann's post: her row carries the new content,
    Bob's row is as it was. *)
Lemma posts_update_keeps_witness :
  let db := {| Storage.users := [];
               Storage.posts := [Storage.mk_post "p1" "bob" "sky is blue" None 1;
                                 Storage.mk_post "p2" "ann" "grass is red" None 2];
               Storage.votes := [Storage.mk_vote "v1" "p1" "ann" "true" 3] |} in
  let db' := {| Storage.users := [];
                Storage.posts := [Storage.mk_post "p1" "bob" "sky is blue" None 1;
                                  Storage.mk_post "p2" "ann" "grass is green" None 2];
                Storage.votes := [Storage.mk_vote "v1" "p1" "ann" "true" 3] |} in
  Storage.posts_update db (fun p => (Storage.p_id p =? "p2")%string) "grass is green" None
  = inl db' /\
  (In (Storage.mk_post "p1" "bob" "sky is blue" None 1) (Storage.posts db') <->
   In (Storage.mk_post "p1" "bob" "sky is blue" None 1) (Storage.posts db)).
Proof.
  cbv zeta. split; [reflexivity|].
  refine (proj1 (proj2 (proj2
            (posts_update_keeps
               {| Storage.users := [];
                  Storage.posts := [Storage.mk_post "p1" "bob" "sky is blue" None 1;
                                    Storage.mk_post "p2" "ann" "grass is red" None 2];
                  Storage.votes := [Storage.mk_vote "v1" "p1" "ann" "true" 3] |}
               {| Storage.users := [];
                  Storage.posts := [Storage.mk_post "p1" "bob" "sky is blue" None 1;
                                    Storage.mk_post "p2" "ann" "grass is green" None 2];
                  Storage.votes := [Storage.mk_vote "v1" "p1" "ann" "true" 3] |}
               "p2" "grass is green" None eq_refl)))
            (Storage.mk_post "p1" "bob" "sky is blue" None 1) _).
  discriminate.
Defined.

(* ------------------------------------------------------------------ *)
(** * Properties of the session *)

Section SessionProofs.
Import App.
Local Open Scope nat_scope.
Local Open Scope string_scope.

(** X27: a sign-in survives a reload: for a non-empty name the state
    after the reload is the state after the sign-in; a sign-in under
    the empty name is forgotten, and the reload asks again; a failed
    sign-in changes nothing and shows nothing; after a logout the
    reload asks again. *)
Theorem session_round_trip (s : State) :
  (forall name, name <> "" ->
     let s1 := fst (handleAuth s name WriteDone) in
     on_mount (load (storedUser s1)) = s1 /\ currentUser s1 = Some name /\
     showAuthModal s1 = false) /\
  (let s1 := fst (handleAuth s "" WriteDone) in
   currentUser s1 = Some "" /\
   currentUser (on_mount (load (storedUser s1))) = None /\
   showAuthModal (on_mount (load (storedUser s1))) = true) /\
  (forall name outcome, outcome <> WriteDone ->
     fst (handleAuth s name outcome) = s /\
     forall e, In e (snd (handleAuth s name outcome)) -> forall msg, e <> Alert msg) /\
  on_mount (load (storedUser (handleLogout s)))
    = {| currentUser := None; showAuthModal := true; storedUser := None |}.
Proof.
  split; [|split; [|split]].
  - intros name Hne. cbn [handleAuth fst storedUser currentUser showAuthModal].
    unfold on_mount, load. cbn [storedUser truthy_user].
    destruct (String.eqb_spec name ""); [contradiction|]. cbn. auto.
  - cbn. auto.
  - intros name outcome Hne. destruct outcome as [|e|e]; [contradiction| |]; cbn.
    + split; [reflexivity|]. intros e0 [<-|[]] msg. discriminate.
    + split; [reflexivity|]. intros e0 [<-|[<-|[]]] msg; discriminate.
  - reflexivity.
Qed.

(** X28: [handleCreatePost] sends nothing without a signed-in user (an
    empty name counts as none); with one, the row it asks for carries
    that user as author; a content of more than 500 characters comes
    back from the table as a failure that is alerted and leaves the
    table as it was, and an accepted post is appended to the table and
    reported by no message. *)
Theorem create_post_on_table (db : Storage.Db) (s : State) (content : string)
    (imageUrl : option string) (fresh_id : string) (now : Z) :
  (truthy_user (currentUser s) = false ->
   forall outcome, handleCreatePost s content imageUrl outcome = []) /\
  (forall user, currentUser s = Some user -> user <> "" ->
     let row := Storage.mk_post fresh_id user content imageUrl now in
     let effects := handleCreatePost s content imageUrl
                      (outcome_of (Storage.posts_insert db row)) in
     option_map (post_row fresh_id now) (hd_error effects) = Some (Some row) /\
     (500 < String.length content ->
      effects = [SupabaseInsertPost user content imageUrl;
                 ConsoleError "Error creating post:";
                 Alert "Failed to create post. Please try again."] /\
      Storage.step db (Storage.InsertPost row) = db) /\
     (String.length content <= 500 ->
      ~ In fresh_id (map Storage.p_id (Storage.posts db)) ->
      effects = [SupabaseInsertPost user content imageUrl] /\
      Storage.posts (Storage.step db (Storage.InsertPost row))
        = (Storage.posts db ++ [row])%list)).
Proof.
  split.
  - intros Hno outcome. unfold handleCreatePost. rewrite Hno. reflexivity.
  - intros user Hu Hne. cbv zeta. unfold handleCreatePost. rewrite Hu.
    cbn [truthy_user]. destruct (String.eqb_spec user ""); [contradiction|]. cbn [negb].
    split; [reflexivity|]. unfold Storage.step. cbn [Storage.apply].
    unfold Storage.posts_insert, Storage.content_check. cbn [Storage.content Storage.p_id].
    split.
    + intros Hlen. rewrite (proj2 (Nat.leb_gt _ _) Hlen). cbn. auto.
    + intros Hlen Hfresh. rewrite (proj2 (Nat.leb_le _ _) Hlen). cbn [negb].
      assert (Ex : existsb (fun p => Storage.p_id p =? fresh_id) (Storage.posts db) = false).
      { apply not_true_is_false. intros X. apply existsb_exists in X as (p & Hp & E).
        apply String.eqb_eq in E. apply Hfresh. rewrite <- E. apply in_map, Hp. }
      rewrite Ex. cbn. auto.
Qed.

(** X29: against the table under the policies of the migration, a
    sign-in under a name that is already registered is refused: the
    user stays where they were, no message is shown and the table is
    unchanged; a sign-in under a new name with an unused id gets in and
    appends its row; whenever a sign-in does not get in, the name was
    registered or the id taken, and nothing but the statement itself
    has happened. *)
Theorem sign_in_on_table (db : Storage.Db) (s : State) (row : Storage.users_row) :
  let r := handleAuth s (Storage.name row) (outcome_of (Storage.users_upsert db row)) in
  let signed_in := {| currentUser := Some (Storage.name row); showAuthModal := false;
                      storedUser := Some (Storage.name row) |} in
  (In (Storage.name row) (map Storage.name (Storage.users db)) ->
   r = (s, [SupabaseUpsertUser (Storage.name row)]) /\
   Storage.step db (Storage.UpsertUser row) = db) /\
  (~ In (Storage.name row) (map Storage.name (Storage.users db)) ->
   ~ In (Storage.u_id row) (map Storage.u_id (Storage.users db)) ->
   r = (signed_in, [SupabaseUpsertUser (Storage.name row)]) /\
   Storage.users (Storage.step db (Storage.UpsertUser row)) = (Storage.users db ++ [row])%list) /\
  (fst r <> signed_in ->
   (In (Storage.name row) (map Storage.name (Storage.users db)) \/
    In (Storage.u_id row) (map Storage.u_id (Storage.users db))) /\
   r = (s, [SupabaseUpsertUser (Storage.name row)]) /\
   Storage.step db (Storage.UpsertUser row) = db).
Proof.
  cbv zeta. unfold Storage.step. cbn [Storage.apply Storage.has_policy].
  unfold Storage.users_upsert. cbn [Storage.has_policy].
  destruct (existsb (fun u => Storage.name u =? Storage.name row) (Storage.users db)) eqn:En.
  - assert (Hin : In (Storage.name row) (map Storage.name (Storage.users db))).
    { apply existsb_exists in En as (u & Hu & E). apply String.eqb_eq in E.
      rewrite <- E. apply in_map, Hu. }
    cbn. split; [auto|]. split; [intros H; contradiction|]. auto.
  - assert (Hnotin : ~ In (Storage.name row) (map Storage.name (Storage.users db))).
    { intros H. apply in_map_iff in H as (u & E & Hu).
      pose proof (existsb_false_forall _ _ En u Hu) as F. cbn in F.
      rewrite E, String.eqb_refl in F. discriminate. }
    destruct (existsb (fun u => Storage.u_id u =? Storage.u_id row) (Storage.users db)) eqn:Ei.
    + assert (Hin : In (Storage.u_id row) (map Storage.u_id (Storage.users db))).
      { apply existsb_exists in Ei as (u & Hu & E). apply String.eqb_eq in E.
        rewrite <- E. apply in_map, Hu. }
      cbn. split; [intros H; contradiction|]. split; [intros _ H; contradiction|]. auto.
    + cbn. split; [intros H; contradiction|]. split; [auto|]. intros H. contradiction.
Qed.

End SessionProofs.

Lemma session_round_trip_witness :
  App.on_mount
    (App.load (App.storedUser (fst (App.handleAuth (App.load None) "ann" App.WriteDone))))
  = {| App.currentUser := Some "ann"; App.showAuthModal := false;
       App.storedUser := Some "ann" |}.
Proof.
  refine (proj1 (proj1 (session_round_trip (App.load None)) "ann" _)). discriminate.
Defined.

Lemma create_post_on_table_witness :
  App.handleCreatePost (App.load None) "sky is blue" None App.WriteDone = [].
Proof.
  exact (proj1 (create_post_on_table Storage.empty (App.load None) "sky is blue" None "p1" 1)
           eq_refl App.WriteDone).
Defined.

(** Ann is registered: a second sign-in under her name changes
    nothing. *)
Lemma sign_in_on_table_witness :
  let db := {| Storage.users := [Storage.mk_user "u1" "ann" 1];
               Storage.posts := []; Storage.votes := [] |} in
  App.handleAuth (App.load None) "ann"
    (App.outcome_of (Storage.users_upsert db (Storage.mk_user "u2" "ann" 2)))
  = (App.load None, [App.SupabaseUpsertUser "ann"]).
Proof.
  cbv zeta.
  refine (proj1 (proj1 (sign_in_on_table
                          {| Storage.users := [Storage.mk_user "u1" "ann" 1];
                             Storage.posts := []; Storage.votes := [] |}
                          (App.load None) (Storage.mk_user "u2" "ann" 2)) _)).
  left. reflexivity.
Defined.

(* ------------------------------------------------------------------ *)
(** * The application on the placeholder client *)

Section PlaceholderProofs.
Import SupabaseClient.
Local Open Scope string_scope.

(** X30: on the placeholder client every handler ends quietly in the
    state it started from: a vote is taken back with the alert of a
    failed submission, loading the votes and the posts fails inside
    the handler (the feed then shows no posts instead of the spinner),
    nobody can sign in, and creating or deleting a post raises the
    alert of an unexpected error; the real client is used only when
    both settings are present and neither is the placeholder value. *)
Theorem placeholder_client_behaviour :
  (forall id user s t,
     PostComponent.handleVote_returns_early s = false ->
     PostComponent.handleVote id user s t (vote_outcome (chain handleVote_chain))
     = (s, [PostComponent.SupabaseInsert id user t;
            PostComponent.ConsoleError "Error voting:";
            PostComponent.Alert "Failed to submit vote. Please try again."])) /\
  (forall user captured s,
     fst (PostComponent.fetchVotes user captured s (votes_outcome (chain fetchVotes_chain)))
     = s) /\
  (forall s,
     let s' := FeedComponent.fetchPosts s (posts_outcome (chain fetchPosts_chain)) in
     FeedComponent.posts s' = FeedComponent.posts s /\
     (FeedComponent.posts s = [] -> FeedComponent.render s' = FeedComponent.NoPostsYet)) /\
  (forall s name,
     fst (App.handleAuth s name (write_outcome (chain handleAuth_chain))) = s) /\
  (forall s user content imageUrl,
     App.currentUser s = Some user -> user <> "" ->
     App.handleCreatePost s content imageUrl (write_outcome (chain handleCreatePost_chain))
     = [App.SupabaseInsertPost user content imageUrl;
        App.ConsoleError "Error:";
        App.Alert "An unexpected error occurred. Please try again."]) /\
  (forall id user isDeleting,
     let r := PostComponent.handleDelete id user user isDeleting true
                (delete_outcome (chain handleDelete_chain)) in
     fst r = false /\
     In (PostComponent.DeleteAlert "An unexpected error occurred. Please try again.") (snd r)) /\
  (forall url key,
     uses_placeholder url key = false ->
     exists u k, url = Some u /\ key = Some k /\ u <> "" /\ k <> "" /\
                 u <> "https://placeholder.supabase.co" /\ k <> "placeholder_anon_key").
Proof.
  split.
  { intros id user s t G. destruct (guard_false s G) as (Hu & Ho & Hv).
    rewrite (handleVote_free id user s t _ G).
    change (vote_outcome (chain handleVote_chain)) with (PostComponent.Failed None).
    cbn [PostComponent.handleVote_settle fst snd]. f_equal.
    unfold PostComponent.setIsVoting, PostComponent.setOptimisticVote.
    cbn [PostComponent.votes PostComponent.userVote PostComponent.isVoting
         PostComponent.optimisticVote].
    rewrite <- Ho, <- Hv. symmetry. apply state_eta. }
  split; [reflexivity|].
  split.
  { intros s. cbv zeta. cbn. split; [reflexivity|]. intros ->. reflexivity. }
  split; [reflexivity|].
  split.
  { intros s user content imageUrl Hu Hne. unfold App.handleCreatePost. rewrite Hu.
    cbn [App.truthy_user]. destruct (String.eqb_spec user ""); [contradiction|]. reflexivity. }
  split.
  { intros id user isDeleting. cbv zeta. unfold PostComponent.handleDelete.
    rewrite String.eqb_refl. cbn. auto 10. }
  intros url key H. unfold uses_placeholder in H.
  apply orb_false_iff in H as [H Hk]. apply orb_false_iff in H as [H Hu].
  apply orb_false_iff in H as [Hurl Hkey].
  destruct url as [u|]; [|discriminate]. destruct key as [k|]; [|discriminate].
  cbn in *. exists u, k.
  repeat split; try reflexivity; apply String.eqb_neq; assumption.
Qed.

End PlaceholderProofs.

Lemma placeholder_client_behaviour_witness :
  PostComponent.handleVote "p1" "ann" PostComponent.initial Vote.vote_true
    (SupabaseClient.vote_outcome (SupabaseClient.chain SupabaseClient.handleVote_chain))
  = (PostComponent.initial,
     [PostComponent.SupabaseInsert "p1" "ann" Vote.vote_true;
      PostComponent.ConsoleError "Error voting:";
      PostComponent.Alert "Failed to submit vote. Please try again."]).
Proof.
  exact (proj1 placeholder_client_behaviour "p1" "ann" PostComponent.initial
           Vote.vote_true eq_refl).
Defined.

Lemma getWebContext_cases_witness :
  Analyzer.getWebContext
    (fun _ => Some (Analyzer.mkSearchData "The sky appears blue." None)) "is the sky blue"
  = Js.Return "Recent web context: The sky appears blue.".
Proof.
  destruct (getWebContext_cases
              (fun _ => Some (Analyzer.mkSearchData "The sky appears blue." None))
              "is the sky blue") as (r & Hr & _ & Hd).
  destruct (Hd _ eq_refl) as (context & -> & _ & Ha & _).
  rewrite Hr, (Ha ltac:(discriminate)). reflexivity.
Defined.
